(** * VisualTwin: isometric scene, camera and pointer handling

    A shallow embedding of [frontend/src/components/VisualTwin/VisualTwin.tsx].

    JavaScript numbers are read as real numbers: [+ - * /] are the field
    operations of [R], [Math.min]/[Math.max] are [Rmin]/[Rmax], comparisons are
    decided with [Rlt_dec]/[Rgt_dec].  Rounding, NaN and the infinities of
    IEEE-754 doubles are outside this model.

    React state ([useState]) and the mutable ref [zoneHitAreasRef] are the
    fields of one record that every handler takes and returns; each handler
    reads the state of the latest render. *)

From Stdlib Require Import Reals Lra List String Bool Arith Lia.
Import ListNotations.
Open Scope R_scope.

(** ** Numbers *)

Module Num.

(** [a > b] and [a < b] as JavaScript booleans. *)
Definition gtb (a b : R) : bool := if Rgt_dec a b then true else false.
Definition ltb (a b : R) : bool := if Rlt_dec a b then true else false.

(** Boolean [!==]. *)
Definition bneq (a b : bool) : bool := negb (Bool.eqb a b).

End Num.

(** ** A small error monad, for the instrumented point-in-polygon test *)

Module Err.

Definition ret {A} (a : A) : option A := Some a.
Definition bind {A B} (m : option A) (k : A -> option B) : option B :=
  match m with
  | Some a => k a
  | None => None
  end.

End Err.

Notation "x <- m ;; k" := (Err.bind m (fun x => k))
  (at level 61, m at next level, right associativity).

(** ** Geometry: [toIsometric] and [isPointInPolygon] *)

Module Geometry.

Record Point : Type := mkPoint { px : R; py : R }.

(** [toIsometric(x, y, z = 0)], lines 37-41. *)
Definition toIsometric (x y z : R) : Point :=
  let isoX := (x - y) * cos (PI / 6) in
  let isoY := (x + y) * sin (PI / 6) - z in
  {| px := isoX; py := isoY |}.

(** An angle given in degrees, in radians. *)
Definition degrees (d : R) : R := d * PI / 180.

Definition origin : Point := {| px := 0; py := 0 |}.

(** The mean of the vertices of a polygon. *)
Definition centroid (polygon : list Point) : Point :=
  let n := INR (List.length polygon) in
  {| px := fold_right Rplus 0 (map px polygon) / n;
     py := fold_right Rplus 0 (map py polygon) / n |}.

(** [polygon[i]] for an index the loop keeps in range. *)
Definition at_index (polygon : list Point) (i : nat) : Point :=
  nth i polygon origin.

(** The [intersect] expression of lines 50-51.  [&&] is [andb]: on real
    numbers both operands have a value, so evaluating the right one
    eagerly does not change the result. *)
Definition intersect (point pi pj : Point) : bool :=
  let xi := px pi in let yi := py pi in
  let xj := px pj in let yj := py pj in
  Num.bneq (Num.gtb yi (py point)) (Num.gtb yj (py point))
  && Num.ltb (px point) ((xj - xi) * (py point - yi) / (yj - yi) + xi).

(** The [for] loop of lines 46-53.  The loop runs while [i < polygon.length]
    and [i] goes up by one each round, so [n] counts the rounds that are
    left: [n = polygon.length - i]. *)
Fixpoint pip_loop (point : Point) (polygon : list Point)
         (n i j : nat) (inside : bool) : bool :=
  match n with
  | O => inside
  | S n' =>
      let pi := at_index polygon i in
      let pj := at_index polygon j in
      let inside' := if intersect point pi pj then negb inside else inside in
      pip_loop point polygon n' (S i) i inside'
  end.

(** [isPointInPolygon(point, polygon)], lines 44-55.  [j] starts at
    [polygon.length - 1]; for the empty polygon that is [-1] in the
    source and the loop body never reads it. *)
Definition isPointInPolygon (point : Point) (polygon : list Point) : bool :=
  pip_loop point polygon (List.length polygon) 0 (List.length polygon - 1) false.

(** *** The same loop, instrumented

    Reading [polygon[k]] out of range (which would make [.x] throw) and a
    division whose divisor is zero both end the run with [None].  The
    right operand of [&&] is evaluated only when the left one is [true],
    as in the source. *)

Definition read (polygon : list Point) (k : nat) : option Point :=
  nth_error polygon k.

Definition div_checked (a b : R) : option R :=
  if Req_dec_T b 0 then None else Some (a / b).

Definition intersect_checked (point pi pj : Point) : option bool :=
  let xi := px pi in let yi := py pi in
  let xj := px pj in let yj := py pj in
  if Num.bneq (Num.gtb yi (py point)) (Num.gtb yj (py point))
  then q <- div_checked ((xj - xi) * (py point - yi)) (yj - yi) ;;
       Err.ret (Num.ltb (px point) (q + xi))
  else Err.ret false.

Fixpoint pip_loop_checked (point : Point) (polygon : list Point)
         (n i j : nat) (inside : bool) : option bool :=
  match n with
  | O => Err.ret inside
  | S n' =>
      pi <- read polygon i ;;
      pj <- read polygon j ;;
      hit <- intersect_checked point pi pj ;;
      pip_loop_checked point polygon n' (S i) i
                       (if hit then negb inside else inside)
  end.

Definition isPointInPolygon_checked (point : Point) (polygon : list Point)
  : option bool :=
  pip_loop_checked point polygon (List.length polygon) 0 (List.length polygon - 1) false.

End Geometry.

(** ** The insertion-ordered [Map<string, V>] of JavaScript

    [set] on a key already present replaces the value in place and keeps the
    key's position; a new key goes to the end.  [forEach] visits the entries
    from first to last. *)

Module JsMap.

Section WithValue.
Context {V : Type}.

Definition t : Type := list (string * V).

Definition empty : t := [].

Fixpoint get (k : string) (m : t) : option V :=
  match m with
  | [] => None
  | (k', v) :: m' => if String.eqb k k' then Some v else get k m'
  end.


Fixpoint set (k : string) (v : V) (m : t) : t :=
  match m with
  | [] => [(k, v)]
  | (k', v') :: m' =>
      if String.eqb k k' then (k, v) :: m' else (k', v') :: set k v m'
  end.


(** [m.forEach((v, k) => body)] threading an accumulator. *)
Definition forEach {St : Type} (m : t) (body : V -> string -> St -> St) (s : St) : St :=
  fold_left (fun acc kv => body (snd kv) (fst kv) acc) m s.

End WithValue.

Arguments t : clear implicits.

End JsMap.

(** ** The 2D drawing context

    The part of [CanvasRenderingContext2D] the component relies on: the
    current transformation matrix with [save]/[restore]/[translate]/[scale],
    and a log of what was painted.  A point [(x, y)] of a path is painted at
    [(a*x + c*y + e, b*x + d*y + f)]; [translate] and [scale] multiply the
    matrix on the right, as the canvas does. *)

Module Canvas.
Import Geometry.

Record Matrix : Type := mkMatrix { ma : R; mb : R; mc : R; md : R; me : R; mf : R }.

Definition identity : Matrix :=
  {| ma := 1; mb := 0; mc := 0; md := 1; me := 0; mf := 0 |}.

Definition mtranslate (m : Matrix) (tx ty : R) : Matrix :=
  {| ma := ma m; mb := mb m; mc := mc m; md := md m;
     me := ma m * tx + mc m * ty + me m;
     mf := mb m * tx + md m * ty + mf m |}.

Definition mscale (m : Matrix) (sx sy : R) : Matrix :=
  {| ma := ma m * sx; mb := mb m * sx; mc := mc m * sy; md := md m * sy;
     me := me m; mf := mf m |}.

Definition apply (m : Matrix) (p : Point) : Point :=
  {| px := ma m * px p + mc m * py p + me m;
     py := mb m * px p + md m * py p + mf m |}.

(** What a frame paints.  Each entry carries the matrix in force when it
    was painted.  Colours, gradients, outlines, arcs and text are not
    recorded. *)
Inductive DrawCmd : Type :=
| FillRect (ctm : Matrix) (x y w h : R)
| FillPath (ctm : Matrix) (path : list Point)
| StrokeLine (ctm : Matrix) (a b : Point).

Record Ctx : Type := mkCtx {
  ctm : Matrix;
  saved : list Matrix;
  painted : list DrawCmd
}.

(** The context at the start of a frame, after
    [ctx.clearRect(0, 0, width, height)]: every [save] of the previous frame
    was matched by a [restore], so the matrix is the identity again. *)
Definition cleared : Ctx := {| ctm := identity; saved := []; painted := [] |}.

Definition save (c : Ctx) : Ctx :=
  {| ctm := ctm c; saved := ctm c :: saved c; painted := painted c |}.

Definition restore (c : Ctx) : Ctx :=
  match saved c with
  | [] => c
  | m :: rest => {| ctm := m; saved := rest; painted := painted c |}
  end.

Definition translate (c : Ctx) (tx ty : R) : Ctx :=
  {| ctm := mtranslate (ctm c) tx ty; saved := saved c; painted := painted c |}.

Definition scale (c : Ctx) (sx sy : R) : Ctx :=
  {| ctm := mscale (ctm c) sx sy; saved := saved c; painted := painted c |}.

Definition paint (c : Ctx) (d : DrawCmd) : Ctx :=
  {| ctm := ctm c; saved := saved c; painted := painted c ++ [d] |}.

Definition fillRect (c : Ctx) (x y w h : R) : Ctx := paint c (FillRect (ctm c) x y w h).
Definition fillPath (c : Ctx) (path : list Point) : Ctx := paint c (FillPath (ctm c) path).
Definition strokeLine (c : Ctx) (a b : Point) : Ctx := paint c (StrokeLine (ctm c) a b).

End Canvas.

(** ** The component *)

Module VisualTwin.
Import Geometry Canvas.

(** [zone.position]. *)
Module Rect.
Record t : Type := mk { x : R; y : R; width : R; height : R }.
End Rect.

(** A zone of [farmData.zones]; the fields the scene geometry reads. *)
Record Zone : Type := mkZone {
  id : string;
  name : string;
  health : R;
  soil_moisture : R;
  position : Rect.t
}.

Record Sensor : Type := mkSensor { sensor_id : string; status : string }.

(** The props.  [zones] is [None] when [farmData.zones] is missing;
    [onZoneClick] says whether the optional callback was passed. *)
Record Props : Type := mkProps {
  zones : option (list Zone);
  sensorData : list Sensor;
  onZoneClick : bool;
  fullScreen : bool
}.

(** The mounted [<canvas>]: whether [getContext('2d')] gives a context, and
    its [getBoundingClientRect()]. *)
Record CanvasEl : Type := mkCanvasEl {
  context2d : bool;
  rect_left : R;
  rect_top : R;
  rect_width : R;
  rect_height : R
}.

(** The [width] and [height] attributes of the canvas, lines 581-582. *)
Definition canvas_width (props : Props) : R := if fullScreen props then 1200 else 1000.
Definition canvas_height (props : Props) : R := if fullScreen props then 900 else 700.

(** An entry of [zoneHitAreasRef.current]. *)
Record HitArea : Type := mkHitArea { hx : R; hy : R; corners : list Point }.

Record MouseEvent : Type := mkMouseEvent { clientX : R; clientY : R }.
Record WheelEvent : Type := mkWheelEvent { deltaY : R }.

(** The state of the component: the [useState] cells, the hit-area ref, the
    canvas content of the last frame, and the calls made to [onZoneClick],
    oldest first. *)
Record State : Type := mkState {
  selectedZone : option string;
  hoveredZone : option string;
  zoomLevel : R;
  panOffset : Point;
  isDragging : bool;
  dragStart : Point;
  showSensors : bool;
  showLabels : bool;
  zoneHitAreas : JsMap.t HitArea;
  frame : list DrawCmd;
  zoneClicks : list string
}.

(** Lines 23-32. *)
Definition initial : State :=
  {| selectedZone := None; hoveredZone := None;
     zoomLevel := 1; panOffset := {| px := 100; py := 50 |};
     isDragging := false; dragStart := {| px := 0; py := 0 |};
     showSensors := true; showLabels := true;
     zoneHitAreas := JsMap.empty; frame := []; zoneClicks := [] |}.

Definition setSelectedZone (v : option string) (s : State) : State :=
  mkState v (hoveredZone s) (zoomLevel s) (panOffset s) (isDragging s) (dragStart s)
          (showSensors s) (showLabels s) (zoneHitAreas s) (frame s) (zoneClicks s).
Definition setHoveredZone (v : option string) (s : State) : State :=
  mkState (selectedZone s) v (zoomLevel s) (panOffset s) (isDragging s) (dragStart s)
          (showSensors s) (showLabels s) (zoneHitAreas s) (frame s) (zoneClicks s).
Definition setZoomLevel (f : R -> R) (s : State) : State :=
  mkState (selectedZone s) (hoveredZone s) (f (zoomLevel s)) (panOffset s) (isDragging s)
          (dragStart s) (showSensors s) (showLabels s) (zoneHitAreas s) (frame s) (zoneClicks s).
Definition setPanOffset (f : Point -> Point) (s : State) : State :=
  mkState (selectedZone s) (hoveredZone s) (zoomLevel s) (f (panOffset s)) (isDragging s)
          (dragStart s) (showSensors s) (showLabels s) (zoneHitAreas s) (frame s) (zoneClicks s).
Definition setIsDragging (v : bool) (s : State) : State :=
  mkState (selectedZone s) (hoveredZone s) (zoomLevel s) (panOffset s) v (dragStart s)
          (showSensors s) (showLabels s) (zoneHitAreas s) (frame s) (zoneClicks s).
Definition setDragStart (v : Point) (s : State) : State :=
  mkState (selectedZone s) (hoveredZone s) (zoomLevel s) (panOffset s) (isDragging s) v
          (showSensors s) (showLabels s) (zoneHitAreas s) (frame s) (zoneClicks s).
Definition setShowSensors (v : bool) (s : State) : State :=
  mkState (selectedZone s) (hoveredZone s) (zoomLevel s) (panOffset s) (isDragging s)
          (dragStart s) v (showLabels s) (zoneHitAreas s) (frame s) (zoneClicks s).
Definition setShowLabels (v : bool) (s : State) : State :=
  mkState (selectedZone s) (hoveredZone s) (zoomLevel s) (panOffset s) (isDragging s)
          (dragStart s) (showSensors s) v (zoneHitAreas s) (frame s) (zoneClicks s).
Definition setFrame (areas : JsMap.t HitArea) (f : list DrawCmd) (s : State) : State :=
  mkState (selectedZone s) (hoveredZone s) (zoomLevel s) (panOffset s) (isDragging s)
          (dragStart s) (showSensors s) (showLabels s) areas f (zoneClicks s).
(** [onZoneClick?.(zoneId)]: the call happens only when the prop was passed. *)
Definition callOnZoneClick (props : Props) (zoneId : string) (s : State) : State :=
  if onZoneClick props
  then mkState (selectedZone s) (hoveredZone s) (zoomLevel s) (panOffset s) (isDragging s)
               (dragStart s) (showSensors s) (showLabels s) (zoneHitAreas s) (frame s)
               (zoneClicks s ++ [zoneId])
  else s.

(** *** Drawing *)

(** [drawSky], lines 58-113: the background rectangle.  The sun and the
    clouds are arcs and are not recorded. *)
Definition drawSky (ctx : Ctx) (width height : R) : Ctx :=
  fillRect ctx 0 0 width height.

(** [drawGround], lines 116-163: the ground quad.  The grid strokes are not
    recorded. *)
Definition drawGround (ctx : Ctx) (width height : R) : Ctx :=
  let centerX := width / 2 in
  let centerY := height * 0.7 in
  let groundSize := 400 in
  let corners :=
    [ toIsometric (- groundSize) (- groundSize) 0;
      toIsometric groundSize (- groundSize) 0;
      toIsometric groundSize groundSize 0;
      toIsometric (- groundSize) groundSize 0 ] in
  let ctx := save ctx in
  let ctx := translate ctx centerX centerY in
  let ctx := fillPath ctx corners in
  restore ctx.

(** [draw3DZone], lines 166-311.  It paints the front, right and top faces
    and records the top face, shifted by the centre, under [zone.id].  The
    crop-row strokes and the label are not recorded.  There is no test on
    the rectangle's width or height anywhere in the function. *)
Definition draw3DZone (ctx : Ctx) (areas : JsMap.t HitArea) (zone : Zone)
           (centerX centerY : R) : Ctx * JsMap.t HitArea :=
  let baseX := Rect.x (position zone) in
  let baseY := Rect.y (position zone) in
  let width := Rect.width (position zone) in
  let height := Rect.height (position zone) in
  let zoneHeight := 30 in
  let scale := 0.8 in
  let x := (baseX - 400) * scale in
  let y := (baseY - 300) * scale in
  let w := width * scale in
  let h := height * scale in
  let ctx := save ctx in
  let ctx := translate ctx centerX centerY in
  let frontCorners :=
    [ toIsometric x (y + h) 0;
      toIsometric (x + w) (y + h) 0;
      toIsometric (x + w) (y + h) zoneHeight;
      toIsometric x (y + h) zoneHeight ] in
  let ctx := fillPath ctx frontCorners in
  let rightCorners :=
    [ toIsometric (x + w) y 0;
      toIsometric (x + w) (y + h) 0;
      toIsometric (x + w) (y + h) zoneHeight;
      toIsometric (x + w) y zoneHeight ] in
  let ctx := fillPath ctx rightCorners in
  let topCorners :=
    [ toIsometric x y zoneHeight;
      toIsometric (x + w) y zoneHeight;
      toIsometric (x + w) (y + h) zoneHeight;
      toIsometric x (y + h) zoneHeight ] in
  let absoluteCorners :=
    map (fun corner => {| px := px corner + centerX; py := py corner + centerY |})
        topCorners in
  let areas :=
    JsMap.set (id zone)
              {| hx := centerX; hy := centerY; corners := absoluteCorners |} areas in
  let ctx := fillPath ctx topCorners in
  (restore ctx, areas).

(** The table of [draw3DSensor], lines 315-321. *)
Definition sensorPositions : list (string * Point) :=
  [ ("SM001"%string, {| px := 125; py := 110 |});
    ("SM002"%string, {| px := 310; py := 110 |});
    ("SM003"%string, {| px := 110; py := 275 |});
    ("TH001"%string, {| px := 360; py := 210 |});
    ("HU001"%string, {| px := 380; py := 230 |}) ].

(** [draw3DSensor], lines 314-390: the pole; glow and marker are arcs. *)
Definition draw3DSensor (ctx : Ctx) (sensor : Sensor) (centerX centerY : R) : Ctx :=
  match JsMap.get (sensor_id sensor) sensorPositions with
  | None => ctx
  | Some pos =>
      let scale := 0.8 in
      let x := (px pos - 400) * scale in
      let y := (py pos - 300) * scale in
      let sensorHeight := 40 in
      let ctx := save ctx in
      let ctx := translate ctx centerX centerY in
      let poleBase := toIsometric x y 0 in
      let poleTop := toIsometric x y sensorHeight in
      let ctx := strokeLine ctx poleBase poleTop in
      restore ctx
  end.

(** The camera of a frame, lines 405-407:
    [ctx.translate(panOffset.x, panOffset.y); ctx.scale(zoomLevel, zoomLevel)]. *)
Definition applyCamera (ctx : Ctx) (s : State) : Ctx :=
  let ctx := translate ctx (px (panOffset s)) (py (panOffset s)) in
  scale ctx (zoomLevel s) (zoomLevel s).

(** Where the camera of state [s] paints the scene point [p]. *)
Definition sceneToScreen (s : State) (p : Point) : Point :=
  apply (ctm (applyCamera cleared s)) p.

(** The zone loop of lines 415-419. *)
Definition drawZones (zs : list Zone) (centerX centerY : R)
           (acc : Ctx * JsMap.t HitArea) : Ctx * JsMap.t HitArea :=
  fold_left (fun a zone => draw3DZone (fst a) (snd a) zone centerX centerY) zs acc.

(** [renderScene], lines 393-428. *)
Definition renderScene (props : Props) (canvasRef : option CanvasEl) (s : State) : State :=
  match canvasRef with
  | None => s
  | Some canvas =>
      if negb (context2d canvas) then s else
      let width := canvas_width props in
      let height := canvas_height props in
      let ctx := cleared in
      let ctx := save ctx in
      let ctx := applyCamera ctx s in
      let ctx := drawSky ctx width height in
      let ctx := drawGround ctx width height in
      let centerX := width / 2 in
      let centerY := height * 0.7 in
      let '(ctx, areas) :=
        match zones props with
        | Some zs => drawZones zs centerX centerY (ctx, zoneHitAreas s)
        | None => (ctx, zoneHitAreas s)
        end in
      let ctx :=
        if showSensors s && (0 <? List.length (sensorData props))%nat
        then fold_left (fun c sensor => draw3DSensor c sensor centerX centerY)
                       (sensorData props) ctx
        else ctx in
      let ctx := restore ctx in
      setFrame areas (painted ctx) s
  end.

(** *** Pointer and wheel handlers *)

(** Lines 450-453. *)
Definition handleMouseDown (e : MouseEvent) (s : State) : State :=
  setDragStart {| px := clientX e; py := clientY e |} (setIsDragging true s).

(** The pointer position in canvas pixels, lines 467-469 and 494-496. *)
Definition mousePos (props : Props) (canvas : CanvasEl) (e : MouseEvent) : Point :=
  {| px := (clientX e - rect_left canvas) * (canvas_width props / rect_width canvas);
     py := (clientY e - rect_top canvas) * (canvas_height props / rect_height canvas) |}.

(** [adjustedX], [adjustedY], lines 472-473 and 498-499. *)
Definition screenToScene (s : State) (mouse : Point) : Point :=
  {| px := (px mouse - px (panOffset s)) / zoomLevel s;
     py := (py mouse - py (panOffset s)) / zoomLevel s |}.

(** Lines 455-484. *)
Definition handleMouseMove (props : Props) (canvasRef : option CanvasEl)
           (e : MouseEvent) (s : State) : State :=
  if isDragging s then
    let start := dragStart s in
    let s := setPanOffset (fun prev =>
                 {| px := px prev + (clientX e - px start);
                    py := py prev + (clientY e - py start) |}) s in
    setDragStart {| px := clientX e; py := clientY e |} s
  else
    match canvasRef with
    | None => s
    | Some canvas =>
        let adjusted := screenToScene s (mousePos props canvas e) in
        let found :=
          JsMap.forEach (zoneHitAreas s)
            (fun hitArea zoneId found =>
               if isPointInPolygon adjusted (corners hitArea) then Some zoneId else found)
            None in
        setHoveredZone found s
    end.

(** Line 486; also the [onMouseLeave] handler. *)
Definition handleMouseUp (s : State) : State := setIsDragging false s.

(** Lines 488-507. *)
Definition handleClick (props : Props) (canvasRef : option CanvasEl)
           (e : MouseEvent) (s : State) : State :=
  if isDragging s then s else
  match canvasRef with
  | None => s
  | Some canvas =>
      let adjusted := screenToScene s (mousePos props canvas e) in
      JsMap.forEach (zoneHitAreas s)
        (fun hitArea zoneId acc =>
           if isPointInPolygon adjusted (corners hitArea)
           then callOnZoneClick props zoneId (setSelectedZone (Some zoneId) acc)
           else acc)
        s
  end.

(** Lines 509-512. *)
Definition handleWheel (e : WheelEvent) (s : State) : State :=
  setZoomLevel (fun prev =>
    Rmax 0.5 (Rmin 2 (prev * (if Num.gtb (deltaY e) 0 then 0.9 else 1.1)))) s.

(** Lines 514-518. *)
Definition handleReset (s : State) : State :=
  setSelectedZone None
    (setPanOffset (fun _ => {| px := 100; py := 50 |})
       (setZoomLevel (fun _ => 1) s)).

(** The zoom buttons, lines 565 and 568. *)
Definition zoomIn (s : State) : State := setZoomLevel (fun prev => Rmin (prev * 1.2) 2) s.
Definition zoomOut (s : State) : State := setZoomLevel (fun prev => Rmax (prev / 1.2) 0.5) s.

(** The two toggles, lines 554 and 560, and the chip's delete, line 694. *)
Definition toggleLabels (s : State) : State := setShowLabels (negb (showLabels s)) s.
Definition toggleSensors (s : State) : State := setShowSensors (negb (showSensors s)) s.
Definition clearSelection (s : State) : State := setSelectedZone None s.

(** *** The component as a state machine *)

Inductive Event : Type :=
| MouseDown (e : MouseEvent)
| MouseMove (e : MouseEvent)
| MouseUp
| MouseLeave
| Click (e : MouseEvent)
| Wheel (e : WheelEvent)
| ZoomInButton
| ZoomOutButton
| ResetButton
| LabelsButton
| SensorsButton
| ChipDelete
| AnimationFrame.

Definition step (props : Props) (canvasRef : option CanvasEl) (s : State) (ev : Event) : State :=
  match ev with
  | MouseDown e => handleMouseDown e s
  | MouseMove e => handleMouseMove props canvasRef e s
  | MouseUp => handleMouseUp s
  | MouseLeave => handleMouseUp s
  | Click e => handleClick props canvasRef e s
  | Wheel e => handleWheel e s
  | ZoomInButton => zoomIn s
  | ZoomOutButton => zoomOut s
  | ResetButton => handleReset s
  | LabelsButton => toggleLabels s
  | SensorsButton => toggleSensors s
  | ChipDelete => clearSelection s
  | AnimationFrame => renderScene props canvasRef s
  end.

(** A run of the component: each event is handled under the props and the
    canvas of the render it arrives in. *)
Definition Occurrence : Type := (Props * option CanvasEl * Event)%type.

Definition occur (s : State) (o : Occurrence) : State :=
  step (fst (fst o)) (snd (fst o)) s (snd o).

Definition run (trace : list Occurrence) (s : State) : State :=
  fold_left occur trace s.

(** *** Names for what the handlers and the renderer compute *)

(** The pointer position of an event. *)
Definition pointer (e : MouseEvent) : Point := {| px := clientX e; py := clientY e |}.

(** The three faces [draw3DZone] fills for [zone], before translation. *)
Definition zoneFaces (zone : Zone) : list Point * list Point * list Point :=
  let zoneHeight := 30 in
  let scale := 0.8 in
  let x := (Rect.x (position zone) - 400) * scale in
  let y := (Rect.y (position zone) - 300) * scale in
  let w := Rect.width (position zone) * scale in
  let h := Rect.height (position zone) * scale in
  ([ toIsometric x (y + h) 0; toIsometric (x + w) (y + h) 0;
     toIsometric (x + w) (y + h) zoneHeight; toIsometric x (y + h) zoneHeight ],
   [ toIsometric (x + w) y 0; toIsometric (x + w) (y + h) 0;
     toIsometric (x + w) (y + h) zoneHeight; toIsometric (x + w) y zoneHeight ],
   [ toIsometric x y zoneHeight; toIsometric (x + w) y zoneHeight;
     toIsometric (x + w) (y + h) zoneHeight; toIsometric x (y + h) zoneHeight ]).

(** The entry [draw3DZone] stores under [zone.id]. *)
Definition zoneHitArea (zone : Zone) (centerX centerY : R) : HitArea :=
  {| hx := centerX; hy := centerY;
     corners := map (fun corner => {| px := px corner + centerX; py := py corner + centerY |})
                    (snd (zoneFaces zone)) |}.






(** The ids of the regions that contain [adjusted], in iteration order. *)
Definition hitIds (adjusted : Point) (areas : JsMap.t HitArea) : list string :=
  map fst (filter (fun kv => isPointInPolygon adjusted (corners (snd kv))) areas).

(** The zoom range of the camera. *)
Definition zoomOk (s : State) : Prop := 0.5 <= zoomLevel s <= 2.

(** [n] wheel events handled one after the other. *)
Definition wheels (es : list WheelEvent) (s : State) : State :=
  fold_left (fun acc e => handleWheel e acc) es s.

(** A pointer-down at [from], pointer-moves through [path], a pointer-up. *)
Definition dragGesture (props : Props) (canvasRef : option CanvasEl)
           (from : MouseEvent) (path : list MouseEvent) : list Occurrence :=
  (props, canvasRef, MouseDown from)
    :: map (fun e => (props, canvasRef, MouseMove e)) path
    ++ [(props, canvasRef, MouseUp)].

(** *** Sample data *)

(** A zone with id [A] on the farm-space rectangle (0, 0, 100, 100). *)
Definition zoneA : Zone :=
  {| id := "A"; name := "North field"; health := 100; soil_moisture := 60;
     position := Rect.mk 0 0 100 100 |}.


(** Props with the given zones, no sensors, the callback passed, normal size. *)
Definition propsOf (zs : list Zone) : Props :=
  {| zones := Some zs; sensorData := []; onZoneClick := true; fullScreen := false |}.

(** A mounted canvas laid out at its own size at the page origin. *)
Definition canvas0 : CanvasEl :=
  {| context2d := true; rect_left := 0; rect_top := 0;
     rect_width := 1000; rect_height := 700 |}.

End VisualTwin.

(** ** More of the component: colours, crop rows, classes of events *)

Module TwinDetails.
Import Geometry VisualTwin.

(** The three channels of an [rgb(r, g, b)] colour string. *)
Record Rgb : Type := mkRgb { red : Z; green : Z; blue : Z }.

(** [topColor] and [sideColor] of [draw3DZone], lines 181-185;
    [Math.floor] is [Zfloor]. *)
Definition topColor (zone : Zone) : Rgb :=
  let moistureRatio := soil_moisture zone / 60 in
  let healthRatio := health zone / 100 in
  {| red := Zfloor (60 + 100 * moistureRatio);
     green := Zfloor (150 + 50 * healthRatio);
     blue := Zfloor (50 + 30 * moistureRatio) |}.

Definition sideColor (zone : Zone) : Rgb :=
  let moistureRatio := soil_moisture zone / 60 in
  let healthRatio := health zone / 100 in
  {| red := Zfloor (40 + 80 * moistureRatio);
     green := Zfloor (120 + 40 * healthRatio);
     blue := Zfloor (30 + 20 * moistureRatio) |}.

(** The crop-row loop of [draw3DZone], lines 280-292:
    [for (let i = 0; i < w; i += 15)], one stroke from [rowStart] to
    [rowEnd] per round.  [time] is [currentTime * 0.001].  The loop has no
    bound known in advance, so the model counts rounds down from [fuel] and
    gives [None] when they run out. *)
Fixpoint cropRowsFrom (fuel : nat) (time x y w h i : R) : option (list (Point * Point)) :=
  match fuel with
  | O => None
  | S fuel' =>
      if Num.ltb i w then
        let zoneHeight := 30 in
        let wave := sin (time * 2 + i * 0.1) * 2 in
        let rowStart := toIsometric (x + i) y (zoneHeight + wave) in
        let rowEnd := toIsometric (x + i) (y + h) (zoneHeight + wave) in
        rest <- cropRowsFrom fuel' time x y w h (i + 15) ;;
        Err.ret ((rowStart, rowEnd) :: rest)
      else Err.ret []
  end.

(** The crop rows of [zone], with [x], [y], [w], [h] as lines 173-176. *)
Definition cropRows (fuel : nat) (time : R) (zone : Zone) : option (list (Point * Point)) :=
  let scale := 0.8 in
  let x := (Rect.x (position zone) - 400) * scale in
  let y := (Rect.y (position zone) - 300) * scale in
  let w := Rect.width (position zone) * scale in
  let h := Rect.height (position zone) * scale in
  cropRowsFrom fuel time x y w h 0.

(** Events that can reach [onZoneClick]. *)
Definition isClick (o : Occurrence) : bool :=
  match snd o with
  | Click _ => true
  | _ => false
  end.

(** Events written to move the camera: a pointer-move during a drag, the
    wheel, the zoom buttons and reset. *)
Definition movesCamera (s : State) (ev : Event) : bool :=
  match ev with
  | MouseMove _ => isDragging s
  | Wheel _ | ZoomInButton | ZoomOutButton | ResetButton => true
  | _ => false
  end.




End TwinDetails.

(** ** The socket hook, [frontend/src/hooks/useWebSocket.ts] *)

Module SensorFeed.

(** [SensorUpdate], lines 3-12. *)
Record SensorUpdate : Type := mkSensorUpdate {
  sensor_id : string;
  type : string;
  zone : string;
  value : R;
  unit : string;
  timestamp : string;
  status : string;
  confidence_score : option R
}.

(** A frame received on the farm socket after [JSON.parse]: its [type]
    and its [data], absent when [message.data] is missing or null. *)
Record FarmMessage : Type := mkFarmMessage {
  mtype : string;
  data : option SensorUpdate
}.

(** What [farmWs.onmessage] is handed: text that [JSON.parse] rejects, or
    a parsed message. *)
Inductive Incoming : Type :=
| Malformed
| Parsed (message : FarmMessage).

(** [arr.slice(-k)]: the last [k] elements, all of them when there are
    fewer. *)
Definition sliceLast {A : Type} (k : nat) (arr : list A) : list A :=
  skipn (List.length arr - k) arr.

(** The updater passed to [setSensorData], lines 44-49. *)
Definition addReading (d : SensorUpdate) (prev : list SensorUpdate) : list SensorUpdate :=
  let filtered := filter (fun x => negb (String.eqb (sensor_id x) (sensor_id d))) prev in
  sliceLast 50 (filtered ++ [d]).

(** [farmWs.onmessage], lines 38-55, on the [sensorData] cell.  A parse
    error is caught and logged. *)
Definition onFarmMessage (ev : Incoming) (sensorData : list SensorUpdate)
  : list SensorUpdate :=
  match ev with
  | Malformed => sensorData
  | Parsed message =>
      match data message with
      | Some d =>
          if String.eqb (mtype message) "sensor_update"
          then addReading d sensorData
          else sensorData
      | None => sensorData
      end
  end.

(** The [sensorData] cell after a sequence of socket frames, from the
    initial empty array of line 23. *)
Definition feed (evs : list Incoming) : list SensorUpdate :=
  fold_left (fun acc ev => onFarmMessage ev acc) evs [].

(** [ChatMessage], lines 14-20, without the optional payloads. *)
Inductive Author : Type := user | ai.

Record ChatMessage : Type := mkChatMessage {
  author : Author;
  message : string;
  stamp : string
}.

(** The chat side of the hook: the [chatMessages] cell and what was
    written to the chat socket, oldest first. *)
Record Chat : Type := mkChat {
  chatMessages : list ChatMessage;
  sent : list string
}.

(** [sendChatMessage], lines 107-116.  [open] is
    [chatWs && chatWs.readyState === WebSocket.OPEN]; [now] is
    [new Date().toISOString()]. *)
Definition sendChatMessage (open : bool) (now : string) (text : string) (c : Chat) : Chat :=
  if open
  then {| chatMessages := chatMessages c ++ [ mkChatMessage user text now ];
          sent := sent c ++ [ text ] |}
  else c.

(** [chatSocket.onmessage], lines 81-98: [reply] is [response.message]
    when the frame parses and has one; the empty string is falsy. *)
Definition onChatMessage (now : string) (reply : option string) (c : Chat) : Chat :=
  match reply with
  | Some text =>
      if String.eqb text "" then c
      else {| chatMessages := chatMessages c ++ [ mkChatMessage ai text now ];
              sent := sent c |}
  | None => c
  end.

Inductive ChatEvent : Type :=
| Send (open : bool) (now : string) (text : string)
| Receive (now : string) (reply : option string).

Definition chatStep (c : Chat) (ev : ChatEvent) : Chat :=
  match ev with
  | Send open now text => sendChatMessage open now text c
  | Receive now reply => onChatMessage now reply c
  end.

Definition chatRun (evs : list ChatEvent) : Chat :=
  fold_left chatStep evs {| chatMessages := []; sent := [] |}.

(** The texts of the user's entries in the chat log. *)
Definition userTexts (log : list ChatMessage) : list string :=
  map message (filter (fun m => match author m with user => true | ai => false end) log).


End SensorFeed.

(** ** The dashboard component, [Dashboard]

    Its text follows the twin's in the component source; line numbers are
    those of that source. *)

Module Dashboard.
Import SensorFeed.

Inductive Color : Type := error | warning | success | info.

Inductive Icon : Type :=
| WarningIcon (color : Color)
| CheckCircleIcon.

(** [getStatusIcon(status, value, type)], lines 986-990 of the component
    source. *)
Definition getStatusIcon (status : string) (value : R) (type : string) : Icon :=
  if String.eqb type "soil_moisture" && Num.ltb value 25 then WarningIcon warning
  else if String.eqb type "temperature" && Num.gtb value 35 then WarningIcon error
  else CheckCircleIcon.

(** [getStatusColor(value, type)], lines 992-1004. *)
Definition getStatusColor (value : R) (type : string) : Color :=
  if String.eqb type "soil_moisture" then
    if Num.ltb value 20 then error
    else if Num.ltb value 30 then warning
    else success
  else if String.eqb type "temperature" then
    if Num.gtb value 35 then error
    else if Num.gtb value 30 then warning
    else success
  else info.

(** The predicate of the alerts section, lines 1134 and 1138. *)
Definition isAlert (s : SensorUpdate) : bool :=
  (String.eqb (SensorFeed.type s) "soil_moisture" && Num.ltb (value s) 25)
  || (String.eqb (SensorFeed.type s) "temperature" && Num.gtb (value s) 35).

(** The readings listed in the alerts section. *)
Definition alerts (sensorData : list SensorUpdate) : list SensorUpdate :=
  filter isAlert sensorData.

(** [sensor.confidence_score || 0.8]: a missing score and a score of zero
    are both falsy. *)
Definition confidence (s : SensorUpdate) : R :=
  match confidence_score s with
  | Some c => if Req_dec_T c 0 then 0.8 else c
  | None => 0.8
  end.

(** A point of [chartData]: the time (kept here as the reading's
    timestamp, which the source formats for display), the reading's type
    as the key of the value, the value, and the confidence. *)
Record ChartPoint : Type := mkChartPoint {
  time : string;
  series : string;
  reading : R;
  shownConfidence : R
}.

(** The effect on [chartData], lines 975-984, run when [sensorData] changes:
    the state is replaced only when there are readings. *)
Definition updateChartData (sensorData : list SensorUpdate) (chartData : list ChartPoint)
  : list ChartPoint :=
  if (0 <? List.length sensorData)%nat
  then map (fun r => {| time := timestamp r; series := SensorFeed.type r;
                        reading := value r; shownConfidence := confidence r |})
           (sliceLast 20 sensorData)
  else chartData.

End Dashboard.

(** * Properties *)

Import Geometry Canvas VisualTwin.

(** ** Comparisons *)

Lemma gtb_true (a b : R) : Num.gtb a b = true <-> a > b.
Proof. unfold Num.gtb. destruct (Rgt_dec a b); split; intros; try easy. Qed.

Lemma gtb_false (a b : R) : Num.gtb a b = false <-> a <= b.
Proof.
  unfold Num.gtb. destruct (Rgt_dec a b); split; intros; try easy; lra.
Qed.

Lemma ltb_true (a b : R) : Num.ltb a b = true <-> a < b.
Proof. unfold Num.ltb. destruct (Rlt_dec a b); split; intros; try easy. Qed.

Lemma ltb_false (a b : R) : Num.ltb a b = false <-> b <= a.
Proof.
  unfold Num.ltb. destruct (Rlt_dec a b); split; intros; try easy; lra.
Qed.

(** ** The projection *)

Lemma thirty_degrees : degrees 30 = PI / 6.
Proof. unfold degrees. field. Qed.

(** C9.  [toIsometric x y z] is the point
    [((x - y) * cos 30deg, (x + y) * sin 30deg - z)]: its value depends on
    the three arguments only, and raising [z] moves the point up by [z] and
    leaves the horizontal coordinate alone. *)
Theorem toIsometric_projection (x y z : R) :
  toIsometric x y z
  = {| px := (x - y) * cos (degrees 30); py := (x + y) * sin (degrees 30) - z |}
  /\ px (toIsometric x y z) = px (toIsometric x y 0)
  /\ py (toIsometric x y z) = py (toIsometric x y 0) - z.
Proof.
  rewrite thirty_degrees. unfold toIsometric; cbn. repeat split. lra.
Qed.

(** ** The point-in-polygon test *)

(** When the two ends of an edge lie on different sides of the ray, their
    ordinates differ. *)
Lemma straddle_distinct (y yi yj : R) :
  Num.bneq (Num.gtb yi y) (Num.gtb yj y) = true -> yj - yi <> 0.
Proof.
  unfold Num.bneq.
  destruct (Num.gtb yi y) eqn:Hi, (Num.gtb yj y) eqn:Hj; cbn; try discriminate; intros _.
  - apply gtb_true in Hi. apply gtb_false in Hj. lra.
  - apply gtb_false in Hi. apply gtb_true in Hj. lra.
Qed.

Lemma intersect_checked_total (point pi pj : Point) :
  intersect_checked point pi pj = Some (intersect point pi pj).
Proof.
  unfold intersect_checked, intersect.
  destruct (Num.bneq _ _) eqn:Hside; cbn; [| reflexivity].
  apply straddle_distinct in Hside.
  unfold div_checked. destruct (Req_dec_T _ 0) as [Hz | _]; [contradiction |].
  reflexivity.
Qed.

Lemma read_at_index (polygon : list Point) (k : nat) :
  (k < List.length polygon)%nat -> read polygon k = Some (at_index polygon k).
Proof.
  intros Hk. unfold read, at_index. now apply nth_error_nth'.
Qed.

Lemma pip_loop_checked_total (point : Point) (polygon : list Point) :
  forall (n i j : nat) (inside : bool),
    (i + n = List.length polygon)%nat ->
    (j < List.length polygon)%nat ->
    pip_loop_checked point polygon n i j inside
    = Some (pip_loop point polygon n i j inside).
Proof.
  induction n as [| n IH]; intros i j inside Hn Hj; cbn [pip_loop_checked pip_loop].
  - reflexivity.
  - rewrite (read_at_index polygon i) by lia.
    rewrite (read_at_index polygon j) by exact Hj.
    cbn [Err.bind]. rewrite intersect_checked_total. cbn [Err.bind].
    apply IH; lia.
Qed.

(** C10.  The instrumented run of [isPointInPolygon] never stops on an
    index out of range or on a zero divisor: for every polygon and point it
    returns the value of the plain loop.  The division is reached only with
    a divisor [yj - yi] that is not zero. *)
Theorem isPointInPolygon_total :
  (forall (point : Point) (polygon : list Point),
      isPointInPolygon_checked point polygon = Some (isPointInPolygon point polygon))
  /\ (forall (point pi pj : Point),
         Num.bneq (Num.gtb (py pi) (py point)) (Num.gtb (py pj) (py point)) = true ->
         py pj - py pi <> 0).
Proof.
  split.
  - intros point polygon. unfold isPointInPolygon_checked, isPointInPolygon.
    destruct polygon as [| p0 rest]; [reflexivity |].
    apply pip_loop_checked_total; cbn; lia.
  - intros point pi pj. apply straddle_distinct.
Qed.

Lemma isPointInPolygon_total_witness :
  isPointInPolygon_checked {| px := 1; py := 1 |}
    [ {| px := 0; py := 0 |}; {| px := 4; py := 0 |}; {| px := 0; py := 4 |} ]
  = Some (isPointInPolygon {| px := 1; py := 1 |}
            [ {| px := 0; py := 0 |}; {| px := 4; py := 0 |}; {| px := 0; py := 4 |} ])
  /\ py {| px := 0; py := 4 |} - py {| px := 4; py := 0 |} <> 0.
Proof.
  split.
  - apply (proj1 isPointInPolygon_total).
  - apply (proj2 isPointInPolygon_total {| px := 1; py := 1 |}
             {| px := 4; py := 0 |} {| px := 0; py := 4 |}).
    cbn. assert (H0 : Num.gtb 0 1 = false) by (apply gtb_false; lra).
    assert (H4 : Num.gtb 4 1 = true) by (apply gtb_true; lra).
    now rewrite H0, H4.
Defined.

(** ** The camera *)

Lemma sceneToScreen_eq (s : State) (p : Point) :
  sceneToScreen s p
  = {| px := zoomLevel s * px p + px (panOffset s);
       py := zoomLevel s * py p + py (panOffset s) |}.
Proof.
  unfold sceneToScreen, applyCamera, apply; cbn. f_equal; ring.
Qed.

Lemma camera_round_trip (s : State) (p : Point) :
  zoomLevel s <> 0 -> screenToScene s (sceneToScreen s p) = p.
Proof.
  intros Hz. rewrite sceneToScreen_eq. unfold screenToScene; cbn.
  destruct p as [x y]; cbn. f_equal; field; exact Hz.
Qed.

(** C3.  The camera of a frame paints the scene point [p] at
    [zoomLevel * p + panOffset], and for a zoom level between 0.5 and 2 the
    pointer conversion [(point - panOffset) / zoomLevel] takes that screen
    point back to [p]. *)
Theorem screenToScene_sceneToScreen (s : State) (p : Point) :
  0.5 <= zoomLevel s <= 2 ->
  sceneToScreen s p
  = {| px := zoomLevel s * px p + px (panOffset s);
       py := zoomLevel s * py p + py (panOffset s) |}
  /\ screenToScene s (sceneToScreen s p) = p.
Proof.
  intros Hz. split; [apply sceneToScreen_eq |].
  apply camera_round_trip. lra.
Qed.

Lemma screenToScene_sceneToScreen_witness :
  0.5 <= zoomLevel initial <= 2
  /\ screenToScene initial (sceneToScreen initial {| px := 3; py := 4 |})
     = {| px := 3; py := 4 |}.
Proof.
  assert (H : 0.5 <= zoomLevel initial <= 2) by (cbn; lra).
  split; [exact H |].
  exact (proj2 (screenToScene_sceneToScreen initial {| px := 3; py := 4 |} H)).
Defined.

Lemma forEach_preserves {V A : Type} (proj : State -> A) (m : JsMap.t V)
      (body : V -> string -> State -> State) :
  (forall v k s, proj (body v k s) = proj s) ->
  forall s, proj (JsMap.forEach m body s) = proj s.
Proof.
  intros Hbody. unfold JsMap.forEach.
  induction m as [| kv m IH]; intros s; cbn; [reflexivity |].
  rewrite IH. apply Hbody.
Qed.

Lemma renderScene_zoomLevel props canvasRef s :
  zoomLevel (renderScene props canvasRef s) = zoomLevel s.
Proof.
  unfold renderScene. destruct canvasRef as [canvas |]; [| reflexivity].
  destruct (negb (context2d canvas)); [reflexivity |].
  destruct (match zones props with Some _ => _ | None => _ end). reflexivity.
Qed.

Lemma handleClick_zoomLevel props canvasRef e s :
  zoomLevel (handleClick props canvasRef e s) = zoomLevel s.
Proof.
  unfold handleClick. destruct (isDragging s); [reflexivity |].
  destruct canvasRef as [canvas |]; [| reflexivity].
  apply (forEach_preserves zoomLevel). intros v k s0.
  destruct (isPointInPolygon _ _); [| reflexivity].
  unfold callOnZoneClick. destruct (onZoneClick props); reflexivity.
Qed.

Lemma handleMouseMove_zoomLevel props canvasRef e s :
  zoomLevel (handleMouseMove props canvasRef e s) = zoomLevel s.
Proof.
  unfold handleMouseMove. destruct (isDragging s); [reflexivity |].
  destruct canvasRef; reflexivity.
Qed.

Lemma step_zoomOk props canvasRef s ev :
  zoomOk s -> zoomOk (step props canvasRef s ev).
Proof.
  unfold zoomOk. intros Hz.
  destruct ev; cbn [step];
    try (rewrite ?handleMouseMove_zoomLevel, ?handleClick_zoomLevel,
           ?renderScene_zoomLevel; cbn; lra).
  - (* wheel *)
    cbn. unfold Rmax, Rmin.
    destruct (Num.gtb _ _); repeat destruct (Rle_dec _ _); lra.
  - (* zoom in *)
    cbn. unfold Rmin. destruct (Rle_dec _ _); lra.
  - (* zoom out *)
    cbn. unfold Rmax. destruct (Rle_dec _ _); lra.
Qed.

Lemma run_zoomOk trace : forall s, zoomOk s -> zoomOk (run trace s).
Proof.
  unfold run. induction trace as [| o trace IH]; intros s Hz; cbn; [exact Hz |].
  apply IH. unfold occur. now apply step_zoomOk.
Qed.

(** C4.  Whatever events arrive, in whatever order and under whatever
    props, the zoom level of a component started in its initial state stays
    between 0.5 and 2; the camera matrix never has a zero scale. *)
Theorem zoomLevel_invariant (trace : list Occurrence) :
  let s := run trace initial in
  0.5 <= zoomLevel s <= 2
  /\ ma (ctm (applyCamera cleared s)) <> 0
  /\ md (ctm (applyCamera cleared s)) <> 0.
Proof.
  cbn zeta.
  assert (Hz : zoomOk (run trace initial)).
  { apply run_zoomOk. unfold zoomOk; cbn; lra. }
  unfold zoomOk in Hz. split; [exact Hz |]. cbn. split; lra.
Qed.

(** ** Wheel zoom *)

Lemma wheel_up_step (a : R) :
  1 <= a -> Rmax 0.5 (Rmin 2 (Rmin 2 a * 1.1)) = Rmin 2 (a * 1.1).
Proof.
  intros Ha. unfold Rmax, Rmin. repeat destruct (Rle_dec _ _); lra.
Qed.

Lemma wheel_down_step (b : R) :
  0 < b <= 1 -> Rmax 0.5 (Rmin 2 (Rmax 0.5 b * 0.9)) = Rmax 0.5 (b * 0.9).
Proof.
  intros Hb. unfold Rmax, Rmin. repeat destruct (Rle_dec _ _); lra.
Qed.

Lemma pow_0_9_range (k : nat) : 0 < 0.9 ^ k <= 1.
Proof.
  induction k as [| k IH]; cbn; [lra | nra].
Qed.

Lemma wheels_up (es : list WheelEvent) :
  Forall (fun e => deltaY e < 0) es ->
  forall (k : nat) (s : State),
    zoomLevel s = Rmin 2 (1.1 ^ k) ->
    zoomLevel (wheels es s) = Rmin 2 (1.1 ^ (k + List.length es)).
Proof.
  unfold wheels.
  induction 1 as [| e es He _ IH]; intros k s Hs; cbn [fold_left List.length].
  - now rewrite Nat.add_0_r.
  - replace (k + S (List.length es))%nat with (S k + List.length es)%nat by lia.
    apply IH. cbn. rewrite Hs.
    assert (Hup : Num.gtb (deltaY e) 0 = false) by (apply gtb_false; lra).
    rewrite Hup, wheel_up_step.
    + f_equal. ring.
    + apply pow_R1_Rle. lra.
Qed.

Lemma wheels_down (es : list WheelEvent) :
  Forall (fun e => deltaY e > 0) es ->
  forall (k : nat) (s : State),
    zoomLevel s = Rmax 0.5 (0.9 ^ k) ->
    zoomLevel (wheels es s) = Rmax 0.5 (0.9 ^ (k + List.length es)).
Proof.
  unfold wheels.
  induction 1 as [| e es He _ IH]; intros k s Hs; cbn [fold_left List.length].
  - now rewrite Nat.add_0_r.
  - replace (k + S (List.length es))%nat with (S k + List.length es)%nat by lia.
    apply IH. cbn. rewrite Hs.
    assert (Hdown : Num.gtb (deltaY e) 0 = true) by (apply gtb_true; lra).
    rewrite Hdown, wheel_down_step.
    + f_equal. ring.
    + apply pow_0_9_range.
Qed.

(** C5.  From a zoom level of 1, [n] wheel events that scroll up
    ([deltaY < 0]) leave the zoom level at [min(2, 1.1^n)], and [n] wheel
    events that scroll down ([deltaY > 0]) leave it at [max(0.5, 0.9^n)]. *)
Theorem wheel_zoom_closed_form (s : State) (es : list WheelEvent) :
  zoomLevel s = 1 ->
  (Forall (fun e => deltaY e < 0) es ->
   zoomLevel (wheels es s) = Rmin 2 (1.1 ^ List.length es))
  /\ (Forall (fun e => deltaY e > 0) es ->
      zoomLevel (wheels es s) = Rmax 0.5 (0.9 ^ List.length es)).
Proof.
  intros Hs. split; intros Hes.
  - apply (wheels_up es Hes 0 s). rewrite Hs. cbn.
    unfold Rmin. destruct (Rle_dec _ _); lra.
  - apply (wheels_down es Hes 0 s). rewrite Hs. cbn.
    unfold Rmax. destruct (Rle_dec _ _); lra.
Qed.

Lemma wheel_zoom_closed_form_witness :
  zoomLevel (wheels [ {| deltaY := -100 |}; {| deltaY := -100 |} ] initial)
  = Rmin 2 (1.1 ^ 2)
  /\ zoomLevel (wheels [ {| deltaY := 100 |} ] initial) = Rmax 0.5 (0.9 ^ 1).
Proof.
  split.
  - apply (proj1 (wheel_zoom_closed_form initial
                    [ {| deltaY := -100 |}; {| deltaY := -100 |} ] eq_refl)).
    repeat constructor; cbn; lra.
  - apply (proj2 (wheel_zoom_closed_form initial [ {| deltaY := 100 |} ] eq_refl)).
    repeat constructor; cbn; lra.
Defined.

(** ** Reset *)

(** C7, as the code has it.  After [handleReset] the zoom level is 1, the
    pan offset is (100, 50) and no zone is selected; the hovered zone is the
    one that was hovered before. *)
Theorem handleReset_state (s : State) :
  zoomLevel (handleReset s) = 1
  /\ panOffset (handleReset s) = {| px := 100; py := 50 |}
  /\ selectedZone (handleReset s) = None
  /\ hoveredZone (handleReset s) = hoveredZone s.
Proof. repeat split. Qed.

(** C7, counterexample.  A hovered zone survives the reset. *)
Lemma handleReset_keeps_hover :
  hoveredZone (handleReset (setHoveredZone (Some "A"%string) initial))
  = Some "A"%string
  /\ hoveredZone (handleReset (setHoveredZone (Some "A"%string) initial)) <> None.
Proof. split; [reflexivity | discriminate]. Qed.

(** ** Dragging *)

Lemma last_cons {A : Type} (l : list A) :
  forall (x d : A), last (x :: l) d = last l x.
Proof.
  induction l as [| y l IH]; intros x d; [reflexivity |].
  change (last (x :: y :: l) d) with (last (y :: l) d).
  now rewrite !IH.
Qed.

Lemma run_cons (o : Occurrence) (trace : list Occurrence) (s : State) :
  run (o :: trace) s = run trace (occur s o).
Proof. reflexivity. Qed.

Lemma run_app (t1 t2 : list Occurrence) (s : State) :
  run (t1 ++ t2) s = run t2 (run t1 s).
Proof. unfold run. apply fold_left_app. Qed.

Lemma handleMouseMove_dragging props canvasRef e s :
  isDragging s = true ->
  handleMouseMove props canvasRef e s
  = setDragStart (pointer e)
      (setPanOffset (fun prev =>
         {| px := px prev + (clientX e - px (dragStart s));
            py := py prev + (clientY e - py (dragStart s)) |}) s).
Proof. intros Hdrag. unfold handleMouseMove. now rewrite Hdrag. Qed.

Lemma drag_moves props canvasRef (path : list MouseEvent) :
  forall (s : State),
    isDragging s = true ->
    let s' := run (map (fun e => (props, canvasRef, MouseMove e)) path) s in
    let stop := last (map pointer path) (dragStart s) in
    isDragging s' = true
    /\ dragStart s' = stop
    /\ px (panOffset s') = px (panOffset s) + (px stop - px (dragStart s))
    /\ py (panOffset s') = py (panOffset s) + (py stop - py (dragStart s))
    /\ selectedZone s' = selectedZone s
    /\ hoveredZone s' = hoveredZone s
    /\ zoneHitAreas s' = zoneHitAreas s
    /\ zoneClicks s' = zoneClicks s.
Proof.
  induction path as [| e path IH]; intros s Hdrag; cbn zeta.
  - cbn. repeat split; try assumption; lra.
  - cbn [map]. rewrite run_cons, last_cons.
    unfold occur; cbn [fst snd step].
    rewrite (handleMouseMove_dragging props canvasRef e s Hdrag).
    set (s1 := setDragStart _ _).
    assert (Hdrag1 : isDragging s1 = true) by exact Hdrag.
    destruct (IH s1 Hdrag1) as (A & B & C & D & E & F & G & H).
    change (dragStart s1) with (pointer e) in B, C, D.
    repeat split; try assumption.
    + rewrite C. cbn. lra.
    + rewrite D. cbn. lra.
Qed.

Lemma run_zoomLevel_moves props canvasRef (path : list MouseEvent) :
  forall s : State,
    zoomLevel (run (map (fun e => (props, canvasRef, MouseMove e)) path) s)
    = zoomLevel s.
Proof.
  induction path as [| e path IH]; intros s; [reflexivity |].
  cbn [map]. rewrite run_cons, IH. unfold occur; cbn [fst snd step].
  apply handleMouseMove_zoomLevel.
Qed.

(** A whole drag: the pan offset moves by the difference between the last
    pointer position and the first, and nothing else of what the user sees
    selected, hovered or reported changes. *)
Lemma dragGesture_effect props canvasRef (s : State)
      (from : MouseEvent) (mid : list MouseEvent) (to : MouseEvent) :
  let s' := run (dragGesture props canvasRef from (mid ++ [to])) s in
  panOffset s'
  = {| px := px (panOffset s) + (clientX to - clientX from);
       py := py (panOffset s) + (clientY to - clientY from) |}
  /\ isDragging s' = false
  /\ zoomLevel s' = zoomLevel s
  /\ selectedZone s' = selectedZone s
  /\ hoveredZone s' = hoveredZone s
  /\ zoneHitAreas s' = zoneHitAreas s
  /\ zoneClicks s' = zoneClicks s.
Proof.
  cbn zeta. unfold dragGesture. rewrite run_cons, run_app.
  change (occur s (props, canvasRef, MouseDown from)) with (handleMouseDown from s).
  destruct (drag_moves props canvasRef (mid ++ [to]) (handleMouseDown from s) eq_refl)
    as (A & B & C & D & E & F & G & H).
  rewrite (map_app pointer) in C, D. cbn [map] in C, D.
  rewrite last_last in C, D. cbn in C, D, E, F, G, H.
  pose proof (run_zoomLevel_moves props canvasRef (mid ++ [to]) (handleMouseDown from s))
    as Z. cbn in Z.
  remember (run (map (fun e => (props, canvasRef, MouseMove e)) (mid ++ [to]))
                (handleMouseDown from s)) as s1.
  cbn. repeat split; try assumption.
  destruct (panOffset s1) as [x1 y1]; cbn in C, D. f_equal; lra.
Qed.


(** ** The hit-area map *)






(** ** What a frame does *)

Lemma draw3DZone_areas ctx areas zone cx cy :
  snd (draw3DZone ctx areas zone cx cy)
  = JsMap.set (id zone) (zoneHitArea zone cx cy) areas.
Proof. reflexivity. Qed.



Lemma drawZones_areas (zs : list Zone) cx cy :
  forall ctx areas,
    snd (drawZones zs cx cy (ctx, areas))
    = fold_left (fun a z => JsMap.set (id z) (zoneHitArea z cx cy) a) zs areas.
Proof.
  unfold drawZones. induction zs as [| z zs IH]; intros ctx areas; cbn [fold_left].
  - reflexivity.
  - rewrite (surjective_pairing (draw3DZone _ _ z cx cy)).
    rewrite IH. now rewrite draw3DZone_areas.
Qed.





(** The hit areas after a frame that has a canvas and a context. *)
Lemma renderScene_areas props canvas s :
  context2d canvas = true ->
  zoneHitAreas (renderScene props (Some canvas) s)
  = match zones props with
    | Some zs =>
        fold_left (fun a z => JsMap.set (id z)
                     (zoneHitArea z (canvas_width props / 2) (canvas_height props * 0.7)) a)
                  zs (zoneHitAreas s)
    | None => zoneHitAreas s
    end.
Proof.
  intros Hctx. unfold renderScene. rewrite Hctx. cbn [negb].
  destruct (zones props) as [zs |].
  - rewrite (surjective_pairing (drawZones zs _ _ _)).
    cbn [zoneHitAreas setFrame]. apply drawZones_areas.
  - reflexivity.
Qed.














(** ** Clicks *)


Lemma renderScene_setFrame props canvasRef s :
  renderScene props canvasRef s
  = setFrame (zoneHitAreas (renderScene props canvasRef s))
             (frame (renderScene props canvasRef s)) s.
Proof.
  unfold renderScene. destruct canvasRef as [canvas |]; [| now destruct s].
  destruct (negb (context2d canvas)); [now destruct s |].
  destruct (match zones props with Some _ => _ | None => _ end). reflexivity.
Qed.

Lemma in_hitIds (adjusted : Point) (areas : JsMap.t HitArea) (zoneId : string) :
  In zoneId (hitIds adjusted areas)
  <-> exists area, In (zoneId, area) areas
                   /\ isPointInPolygon adjusted (corners area) = true.
Proof.
  unfold hitIds. rewrite in_map_iff. split.
  - intros ([k area] & Hk & Hin). cbn in Hk. subst k.
    apply filter_In in Hin. destruct Hin as [Hin Hhit]. now exists area.
  - intros (area & Hin & Hhit). exists (zoneId, area). split; [reflexivity |].
    apply filter_In. now split.
Qed.

(** The loop of [handleClick]: one call per region that contains the
    point, in iteration order; the last of them ends up selected. *)
Lemma click_loop props (adjusted : Point) (areas : JsMap.t HitArea) :
  forall acc : State,
    let s' :=
      JsMap.forEach areas
        (fun hitArea zoneId acc =>
           if isPointInPolygon adjusted (corners hitArea)
           then callOnZoneClick props zoneId (setSelectedZone (Some zoneId) acc)
           else acc)
        acc in
    zoneClicks s'
    = zoneClicks acc ++ (if onZoneClick props then hitIds adjusted areas else [])
    /\ selectedZone s' = last (map Some (hitIds adjusted areas)) (selectedZone acc).
Proof.
  unfold JsMap.forEach, hitIds.
  induction areas as [| [k area] areas IH]; intros acc; cbn zeta.
  - cbn. destruct (onZoneClick props); now rewrite app_nil_r.
  - cbn [fold_left filter fst snd].
    destruct (isPointInPolygon adjusted (corners area)) eqn:Hhit.
    + destruct (IH (callOnZoneClick props k (setSelectedZone (Some k) acc))) as [Hc Hs].
      cbn zeta in Hc, Hs. rewrite Hc, Hs. cbn [map fst]. rewrite last_cons.
      unfold callOnZoneClick. destruct (onZoneClick props); cbn.
      * now rewrite <- app_assoc.
      * auto.
    + apply IH.
Qed.

(** ** The top face of zone [A] *)

Lemma cos_PI6_pos : 0 < cos (PI / 6).
Proof.
  rewrite cos_PI6. apply Rdiv_lt_0_compat; [| lra]. apply sqrt_lt_R0. lra.
Qed.

Lemma zoneA_corners (zone : Zone) (cx cy : R) :
  position zone = Rect.mk 0 0 100 100 ->
  corners (zoneHitArea zone cx cy)
  = [ {| px := - 80 * cos (PI / 6) + cx; py := - 310 + cy |};
      {| px := cx; py := - 270 + cy |};
      {| px := - 80 * cos (PI / 6) + cx; py := - 230 + cy |};
      {| px := - 160 * cos (PI / 6) + cx; py := - 270 + cy |} ].
Proof.
  intros Hpos. unfold zoneHitArea, zoneFaces, toIsometric. rewrite Hpos, sin_PI6.
  cbn [corners snd map px py Rect.x Rect.y Rect.width Rect.height].
  repeat match goal with
         | |- _ :: _ = _ :: _ => apply f_equal2
         | |- {| px := _; py := _ |} = {| px := _; py := _ |} => apply f_equal2; lra
         | |- [] = [] => reflexivity
         end.
Qed.

Lemma intersect_same_side (point pi pj : Point) :
  Num.gtb (py pi) (py point) = Num.gtb (py pj) (py point) ->
  intersect point pi pj = false.
Proof.
  intros Hside. unfold intersect; cbn zeta. rewrite Hside.
  unfold Num.bneq. now rewrite Bool.eqb_reflx.
Qed.

Lemma intersect_crossing (point pi pj : Point) (v : R) :
  Num.gtb (py pi) (py point) <> Num.gtb (py pj) (py point) ->
  (px pj - px pi) * (py point - py pi) / (py pj - py pi) + px pi = v ->
  intersect point pi pj = Num.ltb (px point) v.
Proof.
  intros Hside Hv. unfold intersect; cbn zeta. rewrite Hv.
  unfold Num.bneq.
  destruct (Num.gtb (py pi) (py point)), (Num.gtb (py pj) (py point));
    cbn; congruence.
Qed.

Lemma zoneA_centroid_inside (zone : Zone) (cx cy : R) :
  position zone = Rect.mk 0 0 100 100 ->
  let polygon := corners (zoneHitArea zone cx cy) in
  centroid polygon = {| px := - 80 * cos (PI / 6) + cx; py := - 270 + cy |}
  /\ isPointInPolygon (centroid polygon) polygon = true.
Proof.
  intros Hpos. cbn zeta. rewrite (zoneA_corners zone cx cy Hpos).
  pose proof cos_PI6_pos as Hc. set (c := cos (PI / 6)) in *.
  assert (Hcen : centroid
            [ {| px := - 80 * c + cx; py := - 310 + cy |};
              {| px := cx; py := - 270 + cy |};
              {| px := - 80 * c + cx; py := - 230 + cy |};
              {| px := - 160 * c + cx; py := - 270 + cy |} ]
          = {| px := - 80 * c + cx; py := - 270 + cy |}).
  { unfold centroid. cbn [List.length map fold_right px py].
    change (INR 4) with (1 + 1 + 1 + 1). f_equal; lra. }
  split; [exact Hcen |]. rewrite Hcen.
  unfold isPointInPolygon. cbn [List.length Nat.sub pip_loop at_index nth].
  assert (Hlow : Num.gtb (- 310 + cy) (- 270 + cy) = false) by (apply gtb_false; lra).
  assert (Hmid : Num.gtb (- 270 + cy) (- 270 + cy) = false) by (apply gtb_false; lra).
  assert (Hhigh : Num.gtb (- 230 + cy) (- 270 + cy) = true) by (apply gtb_true; lra).
  rewrite (intersect_same_side _ {| px := - 80 * c + cx; py := - 310 + cy |})
    by (cbn; congruence).
  rewrite (intersect_same_side _ {| px := cx; py := - 270 + cy |})
    by (cbn; congruence).
  rewrite (intersect_crossing _ {| px := - 80 * c + cx; py := - 230 + cy |}
             {| px := cx; py := - 270 + cy |} cx)
    by (cbn; first [congruence | field; lra]).
  rewrite (intersect_crossing _ {| px := - 160 * c + cx; py := - 270 + cy |}
             {| px := - 80 * c + cx; py := - 230 + cy |} (- 160 * c + cx))
    by (cbn; first [congruence | field; lra]).
  cbn [px].
  assert (Hin : Num.ltb (- 80 * c + cx) cx = true) by (apply ltb_true; lra).
  assert (Hout : Num.ltb (- 80 * c + cx) (- 160 * c + cx) = false) by (apply ltb_false; lra).
  rewrite Hin, Hout. reflexivity.
Qed.

Lemma handleClick_calls props canvas e s :
  isDragging s = false ->
  let adjusted := screenToScene s (mousePos props canvas e) in
  let s' := handleClick props (Some canvas) e s in
  zoneClicks s'
  = zoneClicks s ++ (if onZoneClick props then hitIds adjusted (zoneHitAreas s) else [])
  /\ selectedZone s' = last (map Some (hitIds adjusted (zoneHitAreas s))) (selectedZone s).
Proof.
  intros Hdrag. cbn zeta. unfold handleClick. rewrite Hdrag.
  apply click_loop.
Qed.

Lemma click_on_zoneA props canvas zone e s :
  zones props = Some [zone] ->
  id zone = "A"%string ->
  position zone = Rect.mk 0 0 100 100 ->
  context2d canvas = true ->
  onZoneClick props = true ->
  zoneHitAreas s = JsMap.empty ->
  isDragging s = false ->
  0.5 <= zoomLevel s <= 2 ->
  let s1 := renderScene props (Some canvas) s in
  let topFace := corners (zoneHitArea zone (canvas_width props / 2)
                                      (canvas_height props * 0.7)) in
  mousePos props canvas e = sceneToScreen s1 (centroid topFace) ->
  let s2 := handleClick props (Some canvas) e s1 in
  selectedZone s2 = Some "A"%string
  /\ zoneClicks s2 = zoneClicks s ++ [ "A"%string ].
Proof.
  intros Hzs Hid Hpos Hctx Hcb Hempty Hdrag Hzoom. cbn zeta. intros Hmouse.
  set (cx := canvas_width props / 2) in *. set (cy := canvas_height props * 0.7) in *.
  remember (renderScene props (Some canvas) s) as s1 eqn:Es1.
  assert (Hs1 : s1 = setFrame (zoneHitAreas s1) (frame s1) s)
    by (rewrite Es1; apply renderScene_setFrame).
  assert (Hareas : zoneHitAreas s1 = [ ("A"%string, zoneHitArea zone cx cy) ]).
  { rewrite Es1, renderScene_areas by exact Hctx.
    rewrite Hzs, Hempty. cbn. now rewrite Hid. }
  assert (Hdrag1 : isDragging s1 = false) by (rewrite Hs1; exact Hdrag).
  assert (Hzoom1 : zoomLevel s1 <> 0).
  { rewrite Hs1. cbn. lra. }
  destruct (handleClick_calls props canvas e s1 Hdrag1) as [Hcalls Hsel].
  cbn zeta in Hcalls, Hsel.
  rewrite Hmouse, (camera_round_trip s1 _ Hzoom1), Hareas in Hcalls, Hsel.
  rewrite Hcb in Hcalls.
  destruct (zoneA_centroid_inside zone cx cy Hpos) as [_ Hinside]. cbn zeta in Hinside.
  unfold hitIds in Hcalls, Hsel. cbn [filter snd] in Hcalls, Hsel.
  rewrite Hinside in Hcalls, Hsel. cbn in Hcalls, Hsel.
  split; [exact Hsel |]. rewrite Hcalls. rewrite Hs1. reflexivity.
Qed.

(** C1.  A click that arrives while no drag is in progress calls
    [onZoneClick] once for every hit region that contains the
    camera-inverted pointer position, with that region's zone id, and makes
    no other call; a click that arrives during a drag does nothing.  With
    the single zone [A] on (0, 0, 100, 100) drawn into an empty map, a click
    on the screen point of the centroid of its top face selects [A] and
    calls [onZoneClick] once, with [A]. *)
Theorem click_invokes_callback :
  (forall props canvas e s,
      isDragging s = false ->
      onZoneClick props = true ->
      let adjusted := screenToScene s (mousePos props canvas e) in
      let s' := handleClick props (Some canvas) e s in
      zoneClicks s' = zoneClicks s ++ hitIds adjusted (zoneHitAreas s)
      /\ (forall zoneId,
             In zoneId (hitIds adjusted (zoneHitAreas s))
             <-> exists area, In (zoneId, area) (zoneHitAreas s)
                              /\ isPointInPolygon adjusted (corners area) = true)
      /\ selectedZone s'
         = last (map Some (hitIds adjusted (zoneHitAreas s))) (selectedZone s))
  /\ (forall props canvasRef e s,
         isDragging s = true -> handleClick props canvasRef e s = s)
  /\ (forall props canvas zone e s,
         zones props = Some [zone] ->
         id zone = "A"%string ->
         position zone = Rect.mk 0 0 100 100 ->
         context2d canvas = true ->
         onZoneClick props = true ->
         zoneHitAreas s = JsMap.empty ->
         isDragging s = false ->
         0.5 <= zoomLevel s <= 2 ->
         let s1 := renderScene props (Some canvas) s in
         let topFace := corners (zoneHitArea zone (canvas_width props / 2)
                                             (canvas_height props * 0.7)) in
         mousePos props canvas e = sceneToScreen s1 (centroid topFace) ->
         let s2 := handleClick props (Some canvas) e s1 in
         selectedZone s2 = Some "A"%string
         /\ zoneClicks s2 = zoneClicks s ++ [ "A"%string ]).
Proof.
  split; [| split].
  - intros props canvas e s Hdrag Hcb. cbn zeta.
    destruct (handleClick_calls props canvas e s Hdrag) as [Hcalls Hsel].
    cbn zeta in Hcalls, Hsel. rewrite Hcb in Hcalls.
    split; [exact Hcalls |]. split; [| exact Hsel].
    intros zoneId. apply in_hitIds.
  - intros props canvasRef e s Hdrag. unfold handleClick. now rewrite Hdrag.
  - exact click_on_zoneA.
Qed.

Lemma click_invokes_callback_witness :
  let e := {| clientX := 600 - 80 * cos (PI / 6); clientY := 270 |} in
  let s1 := renderScene (propsOf [zoneA]) (Some canvas0) initial in
  let s2 := handleClick (propsOf [zoneA]) (Some canvas0) e s1 in
  (selectedZone s2 = Some "A"%string /\ zoneClicks s2 = [ "A"%string ])
  /\ handleClick (propsOf [zoneA]) (Some canvas0) e (setIsDragging true s1)
     = setIsDragging true s1
  /\ zoneClicks (handleClick (propsOf [zoneA]) (Some canvas0) e initial)
     = zoneClicks initial
         ++ hitIds (screenToScene initial (mousePos (propsOf [zoneA]) canvas0 e))
                   (zoneHitAreas initial).
Proof.
  cbn zeta. split; [| split].
  - refine (proj2 (proj2 click_invokes_callback) (propsOf [zoneA]) canvas0 zoneA
              {| clientX := 600 - 80 * cos (PI / 6); clientY := 270 |} initial
              eq_refl eq_refl eq_refl eq_refl eq_refl eq_refl eq_refl _ _).
    + cbn; lra.
    + destruct (zoneA_centroid_inside zoneA (canvas_width (propsOf [zoneA]) / 2)
                  (canvas_height (propsOf [zoneA]) * 0.7) eq_refl) as [Hcen _].
      cbn zeta in Hcen. rewrite Hcen, sceneToScreen_eq.
      rewrite (renderScene_setFrame (propsOf [zoneA]) (Some canvas0) initial).
      unfold mousePos. cbn. apply f_equal2; lra.
  - apply (proj1 (proj2 click_invokes_callback)). reflexivity.
  - apply (proj1 click_invokes_callback (propsOf [zoneA]) canvas0
             {| clientX := 600 - 80 * cos (PI / 6); clientY := 270 |} initial
             eq_refl eq_refl).
Defined.

(** A click handled after a finished drag is hit-tested like any other
    click: the [isDragging] test of [handleClick] reads [false] once
    [handleMouseUp] has run. *)
Lemma click_after_drag props canvas (s : State)
      (from : MouseEvent) (mid : list MouseEvent) (to e : MouseEvent) :
  let s' := run (dragGesture props (Some canvas) from (mid ++ [to])) s in
  let adjusted := screenToScene s' (mousePos props canvas e) in
  zoneClicks (handleClick props (Some canvas) e s')
  = zoneClicks s ++ (if onZoneClick props then hitIds adjusted (zoneHitAreas s) else []).
Proof.
  cbn zeta.
  destruct (dragGesture_effect props (Some canvas) s from mid to)
    as (_ & Hdrag & _ & _ & _ & Hareas & Hcalls).
  cbn zeta in Hdrag, Hareas, Hcalls.
  destruct (handleClick_calls props canvas e _ Hdrag) as [Hclick _].
  cbn zeta in Hclick. now rewrite Hclick, Hareas, Hcalls.
Qed.

(** * Further properties of the component *)

Import TwinDetails.

(** ** Hovering *)








(** ** Who calls back, who moves the camera *)

Lemma handleClick_zoneClicks_grow props canvasRef e s :
  exists more, zoneClicks (handleClick props canvasRef e s) = zoneClicks s ++ more.
Proof.
  destruct (isDragging s) eqn:Hdrag.
  - exists []. unfold handleClick. rewrite Hdrag. now rewrite app_nil_r.
  - destruct canvasRef as [canvas |].
    + destruct (handleClick_calls props canvas e s Hdrag) as [Hcalls _].
      cbn zeta in Hcalls. eexists. exact Hcalls.
    + exists []. unfold handleClick. rewrite Hdrag. now rewrite app_nil_r.
Qed.

Lemma handleMouseMove_zoneClicks props canvasRef e s :
  zoneClicks (handleMouseMove props canvasRef e s) = zoneClicks s.
Proof.
  unfold handleMouseMove. destruct (isDragging s); [reflexivity |].
  destruct canvasRef; reflexivity.
Qed.

Lemma renderScene_zoneClicks props canvasRef s :
  zoneClicks (renderScene props canvasRef s) = zoneClicks s.
Proof. now rewrite renderScene_setFrame. Qed.

Lemma step_zoneClicks props canvasRef s ev :
  isClick (props, canvasRef, ev) = false ->
  zoneClicks (step props canvasRef s ev) = zoneClicks s.
Proof.
  destruct ev; cbn [isClick snd step]; intros Hev; try discriminate; try reflexivity.
  - apply handleMouseMove_zoneClicks.
  - apply renderScene_zoneClicks.
Qed.

(** X3.  Only click events reach [onZoneClick]: a run without click events
    leaves the callback trace as it was, a run under props without the
    callback too, and no run ever removes or reorders earlier calls. *)
Theorem only_clicks_call_back (trace : list Occurrence) (s : State) :
  (forallb (fun o => negb (isClick o)) trace = true ->
   zoneClicks (run trace s) = zoneClicks s)
  /\ (forallb (fun o => negb (onZoneClick (fst (fst o)))) trace = true ->
      zoneClicks (run trace s) = zoneClicks s)
  /\ exists more, zoneClicks (run trace s) = zoneClicks s ++ more.
Proof.
  revert s. induction trace as [| [[props canvasRef] ev] trace IH]; intros s.
  - repeat split; try reflexivity. exists []. now rewrite app_nil_r.
  - rewrite run_cons. unfold occur; cbn [fst snd].
    destruct (IH (step props canvasRef s ev)) as (IHa & IHb & more & IHc).
    split; [| split].
    + cbn [forallb]. intros Hall. apply andb_prop in Hall. destruct Hall as [Hev Hall].
      rewrite (IHa Hall). apply step_zoneClicks. now apply negb_true_iff in Hev.
    + cbn [forallb fst snd]. intros Hall. apply andb_prop in Hall.
      destruct Hall as [Hcb Hall]. apply negb_true_iff in Hcb.
      rewrite (IHb Hall).
      destruct (isClick (props, canvasRef, ev)) eqn:Hclick;
        [| now apply step_zoneClicks].
      destruct ev; try discriminate. cbn [step].
      destruct (isDragging s) eqn:Hdrag; [unfold handleClick; now rewrite Hdrag |].
      destruct canvasRef as [canvas |]; [| unfold handleClick; now rewrite Hdrag].
      destruct (handleClick_calls props canvas e s Hdrag) as [Hcalls _].
      cbn zeta in Hcalls. rewrite Hcalls, Hcb. apply app_nil_r.
    + assert (Hstep : exists m0, zoneClicks (step props canvasRef s ev) = zoneClicks s ++ m0).
      { destruct (isClick (props, canvasRef, ev)) eqn:Hclick.
        - destruct ev; try discriminate. cbn [step]. apply handleClick_zoneClicks_grow.
        - exists []. rewrite app_nil_r. now apply step_zoneClicks. }
      destruct Hstep as [m0 Hm0]. exists (m0 ++ more).
      now rewrite IHc, Hm0, app_assoc.
Qed.

Lemma only_clicks_call_back_witness :
  zoneClicks (run [ (propsOf [zoneA], Some canvas0, AnimationFrame);
                    (propsOf [zoneA], Some canvas0, MouseMove {| clientX := 3; clientY := 4 |}) ]
                  initial)
  = zoneClicks initial.
Proof.
  exact (proj1 (only_clicks_call_back
                  [ (propsOf [zoneA], Some canvas0, AnimationFrame);
                    (propsOf [zoneA], Some canvas0, MouseMove {| clientX := 3; clientY := 4 |}) ]
                  initial) eq_refl).
Defined.

Lemma handleClick_panOffset props canvasRef e s :
  panOffset (handleClick props canvasRef e s) = panOffset s.
Proof.
  unfold handleClick. destruct (isDragging s); [reflexivity |].
  destruct canvasRef as [canvas |]; [| reflexivity].
  apply (forEach_preserves panOffset). intros v k s0.
  destruct (isPointInPolygon _ _); [| reflexivity].
  unfold callOnZoneClick. destruct (onZoneClick props); reflexivity.
Qed.

(** X4.  Hovering, clicking, pressing or releasing the pointer, the two
    toggles, the chip and rendering never move the camera: pan offset and
    zoom level change only on a pointer-move during a drag, the wheel, the
    zoom buttons and reset. *)
Theorem camera_moves_only_on_camera_events props canvasRef s ev :
  movesCamera s ev = false ->
  panOffset (step props canvasRef s ev) = panOffset s
  /\ zoomLevel (step props canvasRef s ev) = zoomLevel s.
Proof.
  intros Hev. destruct ev; cbn [movesCamera] in Hev; try discriminate;
    cbn [step]; try (split; reflexivity).
  - unfold handleMouseMove. rewrite Hev. destruct canvasRef; split; reflexivity.
  - split; [apply handleClick_panOffset | apply handleClick_zoomLevel].
  - rewrite renderScene_setFrame. split; reflexivity.
Qed.

Lemma camera_moves_only_on_camera_events_witness :
  panOffset (step (propsOf [zoneA]) (Some canvas0) initial
               (Click {| clientX := 3; clientY := 4 |})) = panOffset initial
  /\ zoomLevel (step (propsOf [zoneA]) (Some canvas0) initial
                  (Click {| clientX := 3; clientY := 4 |})) = zoomLevel initial.
Proof.
  exact (camera_moves_only_on_camera_events (propsOf [zoneA]) (Some canvas0) initial
           (Click {| clientX := 3; clientY := 4 |}) eq_refl).
Defined.

(** X5.  The zoom buttons undo each other except at the limits: for a zoom
    level [z] in range, zoom-in then zoom-out gives [min(z, 2/1.2)] and
    zoom-out then zoom-in gives [max(z, 0.5 * 1.2)]. *)
Theorem zoom_buttons_round_trip (s : State) :
  0.5 <= zoomLevel s <= 2 ->
  zoomLevel (zoomOut (zoomIn s)) = Rmin (zoomLevel s) (2 / 1.2)
  /\ zoomLevel (zoomIn (zoomOut s)) = Rmax (zoomLevel s) (0.5 * 1.2).
Proof.
  intros Hz. cbn. unfold Rmin, Rmax.
  split; repeat destruct (Rle_dec _ _); lra.
Qed.

Lemma zoom_buttons_round_trip_witness :
  zoomLevel (zoomOut (zoomIn initial)) = Rmin (zoomLevel initial) (2 / 1.2)
  /\ zoomLevel (zoomIn (zoomOut initial)) = Rmax (zoomLevel initial) (0.5 * 1.2).
Proof.
  apply (zoom_buttons_round_trip initial). cbn; lra.
Defined.

(** ** More on the point-in-polygon test *)

Lemma at_index_In (polygon : list Point) (k : nat) :
  (k < List.length polygon)%nat -> In (at_index polygon k) polygon.
Proof. intros Hk. unfold at_index. now apply nth_In. Qed.

Lemma pip_loop_no_crossing (point : Point) (polygon : list Point) :
  (forall pi pj, In pi polygon -> In pj polygon -> intersect point pi pj = false) ->
  forall (n i j : nat) (inside : bool),
    (i + n = List.length polygon)%nat ->
    (j < List.length polygon)%nat ->
    pip_loop point polygon n i j inside = inside.
Proof.
  intros Hno. induction n as [| n IH]; intros i j inside Hn Hj; cbn [pip_loop].
  - reflexivity.
  - rewrite Hno by (apply at_index_In; lia). apply IH; lia.
Qed.

Lemma isPointInPolygon_no_crossing (point : Point) (polygon : list Point) :
  (forall pi pj, In pi polygon -> In pj polygon -> intersect point pi pj = false) ->
  isPointInPolygon point polygon = false.
Proof.
  intros Hno. unfold isPointInPolygon.
  destruct polygon as [| p0 rest]; [reflexivity |].
  apply pip_loop_no_crossing; [exact Hno | cbn; lia | cbn; lia].
Qed.

(** Where the ray meets the line through an edge lies between the ends of
    the edge when the edge straddles the ray. *)
Lemma crossing_left_of (x y xi yi xj yj : R) :
  Num.bneq (Num.gtb yi y) (Num.gtb yj y) = true ->
  xi <= x -> xj <= x ->
  (xj - xi) * (y - yi) / (yj - yi) + xi <= x.
Proof.
  intros Hside Hxi Hxj.
  pose proof (straddle_distinct y yi yj Hside) as Hd.
  set (t := (y - yi) / (yj - yi)).
  assert (Ht : y - yi = t * (yj - yi)) by (unfold t; field; exact Hd).
  assert (Hrange : 0 <= t <= 1).
  { unfold Num.bneq in Hside.
    destruct (Num.gtb yi y) eqn:Hi, (Num.gtb yj y) eqn:Hj; cbn in Hside; try discriminate.
    - apply gtb_true in Hi. apply gtb_false in Hj.
      assert (Hneg : yj - yi < 0) by lra. split; nra.
    - apply gtb_false in Hi. apply gtb_true in Hj.
      assert (Hpos : 0 < yj - yi) by lra. split; nra. }
  replace ((xj - xi) * (y - yi) / (yj - yi)) with ((xj - xi) * t)
    by (unfold t; field; exact Hd).
  destruct Hrange as [H0 H1].
  assert (Hgj : 0 <= x - xj) by lra. assert (Hgi : 0 <= x - xi) by lra.
  assert (H1' : 0 <= 1 - t) by lra.
  pose proof (Rmult_le_pos _ _ H0 Hgj) as P1.
  pose proof (Rmult_le_pos _ _ H1' Hgi) as P2.
  lra.
Qed.

(** X6.  A point that lies on or above every vertex, strictly below every
    vertex, or on or to the right of every vertex is outside the polygon. *)
Theorem isPointInPolygon_outside (point : Point) (polygon : list Point) :
  Forall (fun v => py v <= py point) polygon
  \/ Forall (fun v => py v > py point) polygon
  \/ Forall (fun v => px v <= px point) polygon ->
  isPointInPolygon point polygon = false.
Proof.
  intros Hout. apply isPointInPolygon_no_crossing. intros pi pj Hi Hj.
  destruct Hout as [Hall | [Hall | Hall]]; rewrite Forall_forall in Hall.
  - apply intersect_same_side.
    pose proof (Hall pi Hi) as H1. pose proof (Hall pj Hj) as H2.
    apply gtb_false in H1, H2. congruence.
  - apply intersect_same_side.
    pose proof (Hall pi Hi) as H1. pose proof (Hall pj Hj) as H2.
    apply gtb_true in H1, H2. congruence.
  - unfold intersect; cbn zeta.
    destruct (Num.bneq _ _) eqn:Hside; [| reflexivity]. cbn [andb].
    apply ltb_false. apply crossing_left_of; auto.
Qed.

Lemma isPointInPolygon_outside_witness :
  isPointInPolygon {| px := 9; py := 1 |}
    [ {| px := 0; py := 0 |}; {| px := 4; py := 0 |}; {| px := 0; py := 4 |} ] = false.
Proof.
  apply isPointInPolygon_outside. right. right.
  repeat constructor; cbn; lra.
Defined.











(** ** The centre of a top face *)







(** ** The sensor layer *)











(** ** Rendering again *)








(** ** Colours and crop rows *)

Lemma Zfloor_between (x : R) (lo hi : Z) :
  IZR lo <= x -> x < IZR hi + 1 -> (lo <= Zfloor x <= hi)%Z.
Proof.
  intros Hlo Hhi. pose proof (Zfloor_bound x) as [Hb1 Hb2]. split.
  - now apply Zfloor_lub.
  - apply Z.lt_succ_r. apply lt_IZR. rewrite succ_IZR. lra.
Qed.

Lemma Zfloor_lt (x y : R) : x + 1 <= y -> (Zfloor x < Zfloor y)%Z.
Proof.
  intros Hxy. pose proof (Zfloor_bound x) as [Hx1 Hx2].
  pose proof (Zfloor_bound y) as [Hy1 Hy2].
  apply lt_IZR. lra.
Qed.

(** X12.  For a zone whose health and soil moisture are percentages, every
    channel of the top and side colours is a valid colour byte, in the
    ranges given, and the side colour is darker than the top colour in
    every channel. *)
Theorem zone_colours_in_range (zone : Zone) :
  0 <= health zone <= 100 ->
  0 <= soil_moisture zone <= 100 ->
  let top := topColor zone in
  let side := sideColor zone in
  ((60 <= red top <= 226)%Z /\ (150 <= green top <= 200)%Z /\ (50 <= blue top <= 100)%Z)
  /\ ((40 <= red side <= 173)%Z /\ (120 <= green side <= 160)%Z /\ (30 <= blue side <= 63)%Z)
  /\ (red side < red top)%Z /\ (green side < green top)%Z /\ (blue side < blue top)%Z.
Proof.
  intros Hh Hm. cbn zeta. unfold topColor, sideColor; cbn [red green blue].
  split; [| split].
  - split; [| split]; apply Zfloor_between; lra.
  - split; [| split]; apply Zfloor_between; lra.
  - split; [| split]; apply Zfloor_lt; lra.
Qed.

Lemma zone_colours_in_range_witness :
  (60 <= red (topColor zoneA) <= 226)%Z
  /\ (red (sideColor zoneA) < red (topColor zoneA))%Z.
Proof.
  assert (Hh : 0 <= health zoneA <= 100) by (cbn; lra).
  assert (Hm : 0 <= soil_moisture zoneA <= 100) by (cbn; lra).
  destruct (zone_colours_in_range zoneA Hh Hm) as ((Hr & _) & _ & Hlt & _).
  split; [exact Hr | exact Hlt].
Defined.

Lemma cropRowsFrom_enough (time x y w h : R) :
  forall (n : nat) (i : R),
    w <= i + 15 * INR n ->
    exists rows,
      (List.length rows <= n)%nat
      /\ (rows = [] <-> w <= i)
      /\ forall fuel, (n < fuel)%nat -> cropRowsFrom fuel time x y w h i = Some rows.
Proof.
  induction n as [| n IH]; intros i Hn.
  - exists []. change (INR 0) with 0 in Hn.
    split; [cbn; lia |]. split; [split; intros _; [lra | reflexivity] |].
    intros [| fuel] Hfuel; [lia |]. cbn [cropRowsFrom].
    assert (Hno : Num.ltb i w = false) by (apply ltb_false; lra).
    now rewrite Hno.
  - destruct (Num.ltb i w) eqn:Hlt.
    + destruct (IH (i + 15)) as (rest & Hlen & _ & Hrun).
      { rewrite S_INR in Hn. lra. }
      eexists (_ :: rest). split; [cbn; lia |]. split.
      * split; [discriminate |]. intros Hle. apply ltb_true in Hlt. lra.
      * intros [| fuel] Hfuel; [lia |]. cbn [cropRowsFrom]. rewrite Hlt.
        rewrite (Hrun fuel) by lia. reflexivity.
    + exists []. split; [cbn; lia |]. apply ltb_false in Hlt. split; [tauto |].
      intros [| fuel] Hfuel; [lia |]. cbn [cropRowsFrom].
      assert (Hno : Num.ltb i w = false) by (apply ltb_false; lra).
      now rewrite Hno.
Qed.

(** X13.  The crop-row loop ends for every width: with [n] the least
    natural number such that [15 * n] exceeds the scaled width (zero for a
    negative width), [n + 1] rounds or more always give the same rows, at
    most [n] of them, and no row at all exactly when the width is zero or
    negative. *)
Theorem cropRows_terminates (time : R) (zone : Zone) :
  let w := Rect.width (position zone) * 0.8 in
  let n := Z.to_nat (up (w / 15)) in
  exists rows,
    (forall fuel, (n < fuel)%nat -> cropRows fuel time zone = Some rows)
    /\ (List.length rows <= n)%nat
    /\ (rows = [] <-> Rect.width (position zone) <= 0).
Proof.
  cbn zeta. set (w := Rect.width (position zone) * 0.8).
  set (n := Z.to_nat (up (w / 15))).
  assert (Hn : w <= 0 + 15 * INR n).
  { destruct (archimed (w / 15)) as [Hup _]. unfold n.
    destruct (Z.lt_ge_cases (up (w / 15)) 0) as [Hneg | Hpos].
    - replace (Z.to_nat (up (w / 15))) with 0%nat by lia.
      apply IZR_lt in Hneg.
      change (INR 0) with 0. lra.
    - rewrite INR_IZR_INZ.
      replace (Z.of_nat (Z.to_nat (up (w / 15)))) with (up (w / 15)) by lia.
      lra. }
  destruct (cropRowsFrom_enough time
              ((Rect.x (position zone) - 400) * 0.8)
              ((Rect.y (position zone) - 300) * 0.8)
              w (Rect.height (position zone) * 0.8) n 0 Hn)
    as (rows & Hlen & Hempty & Hrun).
  exists rows. split; [exact Hrun |]. split; [exact Hlen |].
  rewrite Hempty. unfold w. split; lra.
Qed.

(** * The sensor feed *)

Lemma sliceLast_length {A : Type} (k : nat) (arr : list A) :
  List.length (SensorFeed.sliceLast k arr) = Nat.min k (List.length arr).
Proof. unfold SensorFeed.sliceLast. rewrite length_skipn. lia. Qed.

Lemma sliceLast_suffix {A : Type} (k : nat) (arr : list A) :
  arr = firstn (List.length arr - k) arr ++ SensorFeed.sliceLast k arr.
Proof. unfold SensorFeed.sliceLast. now rewrite firstn_skipn. Qed.

Lemma NoDup_map_app_r {A B : Type} (f : A -> B) (l1 l2 : list A) :
  NoDup (map f (l1 ++ l2)) -> NoDup (map f l2).
Proof.
  rewrite map_app. induction (map f l1) as [| x l IH]; cbn; [auto |].
  intros Hnd. inversion Hnd; subst. auto.
Qed.

Lemma NoDup_ids_sliceLast (k : nat) (arr : list SensorFeed.SensorUpdate) :
  NoDup (map SensorFeed.sensor_id arr) ->
  NoDup (map SensorFeed.sensor_id (SensorFeed.sliceLast k arr)).
Proof.
  intros Hnd. rewrite (sliceLast_suffix k arr) in Hnd.
  now apply NoDup_map_app_r in Hnd.
Qed.

Lemma NoDup_ids_filter (f : SensorFeed.SensorUpdate -> bool)
      (arr : list SensorFeed.SensorUpdate) :
  NoDup (map SensorFeed.sensor_id arr) ->
  NoDup (map SensorFeed.sensor_id (filter f arr)).
Proof.
  induction arr as [| x arr IH]; cbn; [auto |].
  intros Hnd. inversion Hnd as [| ? ? Hnotin Hrest]; subst.
  destruct (f x); [| now apply IH].
  cbn. constructor; [| now apply IH].
  intros Hin. apply Hnotin. apply in_map_iff in Hin.
  destruct Hin as (y & Hid & Hy). apply filter_In in Hy.
  rewrite <- Hid. apply in_map. tauto.
Qed.

Lemma others_lack_id (d : SensorFeed.SensorUpdate) (prev : list SensorFeed.SensorUpdate) :
  ~ In (SensorFeed.sensor_id d)
       (map SensorFeed.sensor_id
            (filter (fun x => negb (String.eqb (SensorFeed.sensor_id x)
                                               (SensorFeed.sensor_id d))) prev)).
Proof.
  intros Hin. apply in_map_iff in Hin. destruct Hin as (y & Hid & Hy).
  apply filter_In in Hy. destruct Hy as [_ Hne].
  rewrite Hid, String.eqb_refl in Hne. discriminate.
Qed.

Lemma NoDup_snoc {A : Type} (l : list A) (a : A) :
  NoDup l -> ~ In a l -> NoDup (l ++ [a]).
Proof.
  induction l as [| x l IH]; cbn; intros Hnd Hnotin.
  - constructor; [intros [] | constructor].
  - inversion Hnd as [| ? ? Hx Hrest]; subst. constructor.
    + intros Hin. apply in_app_or in Hin. destruct Hin as [Hin | [-> | []]]; tauto.
    + apply IH; tauto.
Qed.

Lemma addReading_NoDup (d : SensorFeed.SensorUpdate) (prev : list SensorFeed.SensorUpdate) :
  NoDup (map SensorFeed.sensor_id prev) ->
  NoDup (map SensorFeed.sensor_id (SensorFeed.addReading d prev)).
Proof.
  intros Hnd. unfold SensorFeed.addReading. apply NoDup_ids_sliceLast.
  rewrite map_app. cbn [map].
  apply NoDup_snoc; [now apply NoDup_ids_filter | apply others_lack_id].
Qed.

Lemma onFarmMessage_invariant (ev : SensorFeed.Incoming)
      (sensorData : list SensorFeed.SensorUpdate) :
  (List.length sensorData <= 50)%nat /\ NoDup (map SensorFeed.sensor_id sensorData) ->
  (List.length (SensorFeed.onFarmMessage ev sensorData) <= 50)%nat
  /\ NoDup (map SensorFeed.sensor_id (SensorFeed.onFarmMessage ev sensorData)).
Proof.
  intros [Hlen Hnd]. unfold SensorFeed.onFarmMessage.
  destruct ev as [| message]; [auto |].
  destruct (SensorFeed.data message) as [d |]; [| auto].
  destruct (String.eqb _ _); [| auto].
  split; [| now apply addReading_NoDup].
  unfold SensorFeed.addReading. rewrite sliceLast_length. lia.
Qed.

Lemma feed_invariant (evs : list SensorFeed.Incoming) :
  forall start : list SensorFeed.SensorUpdate,
    (List.length start <= 50)%nat /\ NoDup (map SensorFeed.sensor_id start) ->
    let result := fold_left (fun acc ev => SensorFeed.onFarmMessage ev acc) evs start in
    (List.length result <= 50)%nat /\ NoDup (map SensorFeed.sensor_id result).
Proof.
  induction evs as [| ev evs IH]; intros start Hinv; cbn zeta; [exact Hinv |].
  cbn [fold_left]. apply IH. now apply onFarmMessage_invariant.
Qed.

(** X14.  Whatever frames arrive on the farm socket, in whatever order,
    valid or not, the sensor list never holds more than 50 readings and
    never two readings of the same sensor. *)
Theorem feed_bounded_and_unique (evs : list SensorFeed.Incoming) :
  (List.length (SensorFeed.feed evs) <= 50)%nat
  /\ NoDup (map SensorFeed.sensor_id (SensorFeed.feed evs)).
Proof.
  unfold SensorFeed.feed. apply (feed_invariant evs []).
  split; [cbn; lia | constructor].
Qed.

(** X15.  Adding a reading to a list of at most 50 puts it last, removes
    the sensor's earlier readings and keeps the other readings in their
    order; only when 50 other readings are already there is the oldest of
    them dropped. *)
Theorem addReading_newest_last (d : SensorFeed.SensorUpdate)
        (prev : list SensorFeed.SensorUpdate) :
  (List.length prev <= 50)%nat ->
  let others := filter (fun x => negb (String.eqb (SensorFeed.sensor_id x)
                                                  (SensorFeed.sensor_id d))) prev in
  SensorFeed.addReading d prev
  = (if (List.length others <? 50)%nat then others else tl others) ++ [d]
  /\ filter (fun x => String.eqb (SensorFeed.sensor_id x) (SensorFeed.sensor_id d))
            (SensorFeed.addReading d prev) = [d].
Proof.
  intros Hlen. cbn zeta.
  set (others := filter _ prev).
  assert (Hothers : (List.length others <= 50)%nat).
  { unfold others. pose proof (filter_length_le
      (fun x => negb (String.eqb (SensorFeed.sensor_id x) (SensorFeed.sensor_id d))) prev).
    lia. }
  assert (Hshape : SensorFeed.addReading d prev
                   = (if (List.length others <? 50)%nat then others else tl others) ++ [d]).
  { unfold SensorFeed.addReading. fold others. unfold SensorFeed.sliceLast.
    rewrite length_app. cbn [List.length].
    destruct (Nat.ltb_spec (List.length others) 50) as [Hlt | Hge].
    - replace (List.length others + 1 - 50)%nat with 0%nat by lia. reflexivity.
    - replace (List.length others + 1 - 50)%nat with 1%nat by lia.
      destruct others as [| x rest]; [cbn in Hge; lia | reflexivity]. }
  split; [exact Hshape |].
  rewrite Hshape, filter_app. cbn [filter]. rewrite String.eqb_refl.
  assert (Hnone : forall l, incl l others ->
            filter (fun x => String.eqb (SensorFeed.sensor_id x) (SensorFeed.sensor_id d)) l
            = []).
  { induction l as [| x l IH]; intros Hincl; [reflexivity |]. cbn [filter].
    assert (Hx : In x others) by (apply Hincl; now left).
    unfold others in Hx. apply filter_In in Hx. destruct Hx as [_ Hne].
    apply negb_true_iff in Hne. rewrite Hne. apply IH.
    intros y Hy. apply Hincl. now right. }
  rewrite Hnone; [reflexivity |].
  destruct (List.length others <? 50)%nat; [apply incl_refl |].
  destruct others as [| x rest]; [apply incl_refl | apply incl_tl, incl_refl].
Qed.

Lemma addReading_newest_last_witness :
  let d := SensorFeed.mkSensorUpdate "SM001" "soil_moisture" "A" 31 "%" "t1" "normal" None in
  let d' := SensorFeed.mkSensorUpdate "SM001" "soil_moisture" "A" 22 "%" "t2" "warning" None in
  SensorFeed.addReading d' [d] = [d'].
Proof.
  cbn zeta.
  refine (proj1 (addReading_newest_last
                   (SensorFeed.mkSensorUpdate "SM001" "soil_moisture" "A" 22 "%" "t2"
                                              "warning" None)
                   [ SensorFeed.mkSensorUpdate "SM001" "soil_moisture" "A" 31 "%" "t1"
                                               "normal" None ] _)).
  cbn. lia.
Defined.



(** ** The chat log *)

Lemma userTexts_app (l1 l2 : list SensorFeed.ChatMessage) :
  SensorFeed.userTexts (l1 ++ l2) = SensorFeed.userTexts l1 ++ SensorFeed.userTexts l2.
Proof. unfold SensorFeed.userTexts. now rewrite filter_app, map_app. Qed.

Lemma chatStep_invariant (c : SensorFeed.Chat) (ev : SensorFeed.ChatEvent) :
  SensorFeed.userTexts (SensorFeed.chatMessages c) = SensorFeed.sent c ->
  SensorFeed.userTexts (SensorFeed.chatMessages (SensorFeed.chatStep c ev))
  = SensorFeed.sent (SensorFeed.chatStep c ev)
  /\ exists more,
       SensorFeed.chatMessages (SensorFeed.chatStep c ev)
       = SensorFeed.chatMessages c ++ more.
Proof.
  intros Hinv. destruct ev as [open now text | now reply]; cbn [SensorFeed.chatStep].
  - unfold SensorFeed.sendChatMessage. destruct open.
    + cbn [SensorFeed.chatMessages SensorFeed.sent]. split; [| now eexists].
      rewrite userTexts_app, Hinv. reflexivity.
    + split; [exact Hinv |]. exists []. now rewrite app_nil_r.
  - unfold SensorFeed.onChatMessage. destruct reply as [text |].
    + destruct (String.eqb text ""); cbn [SensorFeed.chatMessages SensorFeed.sent].
      * split; [exact Hinv |]. exists []. now rewrite app_nil_r.
      * split; [| now eexists]. rewrite userTexts_app, Hinv. cbn. apply app_nil_r.
    + split; [exact Hinv |]. exists []. now rewrite app_nil_r.
Qed.

(** X17.  In the chat log kept by the hook, the user's entries are exactly
    the texts written to the chat socket, in the order they were written:
    a text given to [sendChatMessage] while the socket is not open is
    neither sent nor logged, and replies never add or remove a user entry. *)
Theorem chat_log_matches_socket (evs : list SensorFeed.ChatEvent) :
  SensorFeed.userTexts (SensorFeed.chatMessages (SensorFeed.chatRun evs))
  = SensorFeed.sent (SensorFeed.chatRun evs).
Proof.
  unfold SensorFeed.chatRun.
  assert (Hgen : forall c,
             SensorFeed.userTexts (SensorFeed.chatMessages c) = SensorFeed.sent c ->
             SensorFeed.userTexts
               (SensorFeed.chatMessages (fold_left SensorFeed.chatStep evs c))
             = SensorFeed.sent (fold_left SensorFeed.chatStep evs c)).
  { induction evs as [| ev evs IH]; intros c Hinv; [exact Hinv |].
    cbn [fold_left]. apply IH. now apply chatStep_invariant. }
  apply Hgen. reflexivity.
Qed.

(** * The dashboard *)

(** X18.  A reading is listed in the alerts section exactly when its card
    shows the warning icon, and then its status colour is [error] or
    [warning], never [success] or [info]; a temperature alert is always
    [error]. *)
Theorem alert_matches_icon (s : SensorFeed.SensorUpdate) :
  let icon := Dashboard.getStatusIcon (SensorFeed.status s) (SensorFeed.value s)
                                      (SensorFeed.type s) in
  let color := Dashboard.getStatusColor (SensorFeed.value s) (SensorFeed.type s) in
  (Dashboard.isAlert s = true <-> icon <> Dashboard.CheckCircleIcon)
  /\ (Dashboard.isAlert s = true -> color = Dashboard.error \/ color = Dashboard.warning)
  /\ (Dashboard.isAlert s = true -> SensorFeed.type s = "temperature"%string ->
      color = Dashboard.error).
Proof.
  cbn zeta. unfold Dashboard.isAlert, Dashboard.getStatusIcon, Dashboard.getStatusColor.
  destruct (String.eqb_spec (SensorFeed.type s) "soil_moisture") as [Hsoil | Hsoil].
  - rewrite Hsoil. cbn [String.eqb Ascii.eqb Bool.eqb andb orb].
    destruct (Num.ltb (SensorFeed.value s) 25) eqn:H25; cbn [andb orb].
    + apply ltb_true in H25. split; [split; [discriminate | reflexivity] |].
      split; [| discriminate]. intros _.
      destruct (Num.ltb (SensorFeed.value s) 20); [now left |].
      assert (H30 : Num.ltb (SensorFeed.value s) 30 = true) by (apply ltb_true; lra).
      rewrite H30. now right.
    + split; [split; [discriminate | congruence] |]. split; discriminate.
  - cbn [andb orb].
    destruct (String.eqb_spec (SensorFeed.type s) "temperature") as [Htemp | Htemp].
    + destruct (Num.gtb (SensorFeed.value s) 35) eqn:H35; cbn [andb orb].
      * split; [split; [discriminate | reflexivity] |]. split; intros _; auto.
      * split; [split; [discriminate | congruence] |]. split; discriminate.
    + cbn [andb orb]. split; [split; [discriminate | congruence] |]. split; discriminate.
Qed.

Lemma alert_matches_icon_witness :
  let s := SensorFeed.mkSensorUpdate "TH001" "temperature" "A" 36 "C" "t1" "critical" None in
  Dashboard.getStatusColor (SensorFeed.value s) (SensorFeed.type s) = Dashboard.error.
Proof.
  cbn zeta.
  refine (proj2 (proj2 (alert_matches_icon
                          (SensorFeed.mkSensorUpdate "TH001" "temperature" "A" 36 "C" "t1"
                                                     "critical" None))) _ eq_refl).
  unfold Dashboard.isAlert. cbn.
  assert (H : Num.gtb 36 35 = true) by (apply gtb_true; lra).
  now rewrite H.
Defined.

Lemma confidence_nonzero (s : SensorFeed.SensorUpdate) : Dashboard.confidence s <> 0.
Proof.
  unfold Dashboard.confidence. destruct (SensorFeed.confidence_score s) as [c |]; [| lra].
  destruct (Req_dec_T c 0); [lra | assumption].
Qed.

(** X19.  The chart keeps the latest 20 readings, oldest first: for a
    non-empty sensor list it has [min(20, n)] points, taken in order from
    the end of the list, and no point has confidence 0 (a reported score
    of 0 is charted as 0.8, like a missing one); an empty sensor list
    leaves the chart as it was. *)
Theorem chart_shows_latest_twenty (sensorData : list SensorFeed.SensorUpdate)
        (chartData : list Dashboard.ChartPoint) :
  let chart := Dashboard.updateChartData sensorData chartData in
  (sensorData = [] -> chart = chartData)
  /\ (sensorData <> [] ->
      List.length chart = Nat.min 20 (List.length sensorData)
      /\ (exists earlier latest,
             sensorData = earlier ++ latest
             /\ map Dashboard.time chart = map SensorFeed.timestamp latest
             /\ map Dashboard.series chart = map SensorFeed.type latest
             /\ map Dashboard.reading chart = map SensorFeed.value latest)
      /\ Forall (fun p => Dashboard.shownConfidence p <> 0) chart).
Proof.
  cbn zeta. unfold Dashboard.updateChartData. split.
  - intros ->. reflexivity.
  - intros Hne. destruct sensorData as [| r0 rest] eqn:Hdata; [congruence |].
    change (0 <? List.length (r0 :: rest))%nat with true. cbv iota.
    rewrite <- Hdata. split; [| split].
    + rewrite length_map. apply sliceLast_length.
    + exists (firstn (List.length sensorData - 20) sensorData),
             (SensorFeed.sliceLast 20 sensorData).
      split; [apply sliceLast_suffix |]. rewrite !map_map. repeat split.
    + apply Forall_forall. intros p Hp. apply in_map_iff in Hp.
      destruct Hp as (r & <- & _). cbn. apply confidence_nonzero.
Qed.

Lemma chart_shows_latest_twenty_witness :
  let r := SensorFeed.mkSensorUpdate "SM001" "soil_moisture" "A" 31 "%" "t1" "normal"
                                     (Some 0) in
  Dashboard.updateChartData [] [] = []
  /\ List.length (Dashboard.updateChartData [r] []) = 1%nat.
Proof.
  cbn zeta. split.
  - apply (proj1 (chart_shows_latest_twenty [] [])). reflexivity.
  - refine (proj1 (proj2 (chart_shows_latest_twenty
                            [ SensorFeed.mkSensorUpdate "SM001" "soil_moisture" "A" 31 "%"
                                                        "t1" "normal" (Some 0) ] []) _)).
    discriminate.
Defined.

(** * Hit regions and the camera *)


